(** * His Children: the cart and catalogue script

    A shallow embedding of [src/js/cart.js] and of its second copy with the
    inline catalogue ([src/unnamed/part_000]), and the properties of the
    cart store, the catalogue lookups and the price helpers.

    Modelling conventions.
    - A JavaScript number is an exact rational ([number := Q]); [NaN], the
      infinities and the rounding of doubles are not represented.
      Statements about comparisons hold of doubles as they stand; statements
      about sums are made for whole-numbered line-items, on which the
      additions of the code round nothing, and statements about quotients
      leave room for the rounding.
    - [localStorage] is a finite map from keys to stored strings.  A stored
      string is either the JSON text of a document tree or text that
      [JSON.parse] rejects; the concrete syntax of JSON is not represented.
      Writes always succeed (no quota).
    - The cart code reads the parsed document as an array of line-items (the
      [@returns {Array} Array of cart items] of the source).  Documents of
      another shape have no typed reading: the operations are partial
      ([option]) and undefined there.
    - [Products] and [Collections] are plain objects used as maps from ids.
      The lookups of [CartJs] and [Part000] read their own entries only;
      [CartJs.Objects] has the same lookups with the members inherited from
      [Object.prototype] below the own entries.
    - [loadProductData] is asynchronous: a call is its guard and, once its
      awaits have settled, [loadProductData_settle].
    - The page is represented by the contents of its [.cart-count] elements. *)

From Stdlib Require Import QArith Qround Qabs ZArith String List DecimalString Lia Lqa.
From stdpp Require Import base option list strings gmap.

Set Warnings "-register-all".
Open Scope Q_scope.

(** ** The JavaScript values the script computes with *)

Definition number := Q.

(** [a > b], [a >= b], [a < b], [a <= b] and [!n] on numbers. *)
Definition num_le (a b : number) : bool := Qle_bool a b.
Definition num_lt (a b : number) : bool := negb (Qle_bool b a).
Definition num_ge (a b : number) : bool := num_le b a.
Definition num_gt (a b : number) : bool := num_lt b a.
Definition num_truthy (n : number) : bool := negb (Qeq_bool n 0).

(** [Math.round]: the nearest integer, halves towards plus infinity. *)
Definition Math_round (x : number) : number := inject_Z (Qfloor (x + (1 # 2))).

(** A value of the kinds [isOnSale] can return: [a && b] yields [a] itself
    when [a] is falsy. *)
Inductive value :=
| VNull
| VNum (n : number)
| VBool (b : bool).

Definition truthy (v : value) : bool :=
  match v with
  | VNull => false
  | VNum n => num_truthy n
  | VBool b => b
  end.

(** A property holding [null] or a number. *)
Definition nullable_value (o : option number) : value :=
  match o with
  | None => VNull
  | Some n => VNum n
  end.

(** JSON document trees. *)
Inductive json :=
| JNull
| JBool (b : bool)
| JNum (n : number)
| JStr (s : string)
| JArr (xs : list json)
| JObj (fields : list (string * json)).

(** What a storage slot holds: a string.  [Text j] is the JSON text of [j],
    [Garbled s] is a string [s] outside the JSON grammar. *)
Inductive stored :=
| Text (j : json)
| Garbled (s : string).

Definition JSON_stringify (j : json) : stored := Text j.

(** [None] stands for the [SyntaxError] thrown by [JSON.parse]. *)
Definition JSON_parse (s : stored) : option json :=
  match s with
  | Text j => Some j
  | Garbled _ => None
  end.

(** [Array.prototype.findIndex]: the first index whose element satisfies
    [f], or [-1]. *)
Fixpoint findIndex_from {A} (f : A -> bool) (i : Z) (l : list A) : Z :=
  match l with
  | [] => (-1)%Z
  | x :: r => if f x then i else findIndex_from f (i + 1)%Z r
  end.

Definition findIndex {A} (f : A -> bool) (l : list A) : Z := findIndex_from f 0%Z l.

(** The property names a plain object inherits from [Object.prototype]:
    reading one of them on an object that has no own property of that name
    yields a function ([Object.prototype] itself for [__proto__]), which is
    truthy and has no property [products]. *)
Definition Object_prototype_names : list string :=
  ["constructor"; "toString"; "toLocaleString"; "valueOf"; "hasOwnProperty";
   "isPrototypeOf"; "propertyIsEnumerable"; "__proto__"; "__defineGetter__";
   "__defineSetter__"; "__lookupGetter__"; "__lookupSetter__"]%string.

(** What [table[key]] yields on a plain object whose own properties are the
    entries of [table]: an own entry, a member of [Object.prototype], or
    [undefined]. *)
Inductive property (V : Type) :=
| Own (v : V)
| Inherited (name : string)
| Undefined.

Arguments Own {V} v.
Arguments Inherited {V} name.
Arguments Undefined {V}.

Definition get_property {V} (table : gmap string V) (key : string) : property V :=
  match table !! key with
  | Some v => Own v
  | None => if decide (key ∈ Object_prototype_names) then Inherited key else Undefined
  end.

(** [s.slice(-n)]: the last [n] characters of [s], all of [s] when it is
    shorter. *)
Definition slice_last (n : nat) (s : string) : string :=
  substring (String.length s - n) n s.

(** [n.toString()] for a non-negative integer. *)
Definition nat_toString (n : N) : string := NilEmpty.string_of_uint (N.to_uint n).

(** ** Data model *)

Module Product.
Record t := mk {
  id : string;
  name : string;
  price : number;
  salePrice : option number;
  collection : string;
  collectionSlug : string;
  image : string;
  shortDescription : string;
  longDescription : string
}.
End Product.

Module Collection.
Record t := mk {
  id : string;
  name : string;
  description : string;
  image : string;
  products : list string
}.
End Collection.

(** A collection as [data/products.json] lists it: without the [products]
    list, which [loadProductData] derives. *)
Module SourceCollection.
Record t := mk {
  id : string;
  name : string;
  description : string;
  image : string
}.
End SourceCollection.

(** The document [loadProductData] fetches. *)
Module Data.
Record t := mk {
  products : list Product.t;
  collections : list SourceCollection.t
}.
End Data.

(** A cart line-item, the object literal pushed by [addItem]. *)
Module Item.
Record t := mk {
  id : string;
  name : string;
  price : number;
  originalPrice : number;
  salePrice : option number;
  image : string;
  collection : string;
  quantity : number
}.

Definition with_quantity (q : number) (it : t) : t :=
  mk (id it) (name it) (price it) (originalPrice it) (salePrice it) (image it)
     (collection it) q.
End Item.

Module Totals.
Record t := mk {
  subtotal : number;
  shipping : number;
  total : number;
  itemCount : number
}.
End Totals.

Module Order.
Record t := mk {
  orderNumber : string;
  items : list Item.t;
  totals : Totals.t;
  date : string
}.
End Order.

(** ** Line-items, totals and orders as JSON documents *)

Definition take_str (k : string) (fs : list (string * json)) : option (string * list (string * json)) :=
  match fs with
  | (k', JStr s) :: r => if decide (k' = k) then Some (s, r) else None
  | _ => None
  end.

Definition take_num (k : string) (fs : list (string * json)) : option (number * list (string * json)) :=
  match fs with
  | (k', JNum n) :: r => if decide (k' = k) then Some (n, r) else None
  | _ => None
  end.

Definition take_nullable (k : string) (fs : list (string * json)) : option (option number * list (string * json)) :=
  match fs with
  | (k', JNum n) :: r => if decide (k' = k) then Some (Some n, r) else None
  | (k', JNull) :: r => if decide (k' = k) then Some (None, r) else None
  | _ => None
  end.

Definition nullable_to_json (o : option number) : json :=
  match o with
  | None => JNull
  | Some n => JNum n
  end.

Definition item_to_json (it : Item.t) : json :=
  JObj [("id", JStr (Item.id it));
        ("name", JStr (Item.name it));
        ("price", JNum (Item.price it));
        ("originalPrice", JNum (Item.originalPrice it));
        ("salePrice", nullable_to_json (Item.salePrice it));
        ("image", JStr (Item.image it));
        ("collection", JStr (Item.collection it));
        ("quantity", JNum (Item.quantity it))]%string.

Definition json_to_item (j : json) : option Item.t :=
  match j with
  | JObj fs =>
      '(i, fs) ← take_str "id" fs;
      '(n, fs) ← take_str "name" fs;
      '(p, fs) ← take_num "price" fs;
      '(o, fs) ← take_num "originalPrice" fs;
      '(s, fs) ← take_nullable "salePrice" fs;
      '(m, fs) ← take_str "image" fs;
      '(c, fs) ← take_str "collection" fs;
      '(q, fs) ← take_num "quantity" fs;
      match fs with
      | [] => Some (Item.mk i n p o s m c q)
      | _ :: _ => None
      end
  | _ => None
  end.

Definition items_to_json (items : list Item.t) : json := JArr (map item_to_json items).

Definition json_to_items (j : json) : option (list Item.t) :=
  match j with
  | JArr xs => mapM json_to_item xs
  | _ => None
  end.

Definition totals_to_json (t : Totals.t) : json :=
  JObj [("subtotal", JNum (Totals.subtotal t));
        ("shipping", JNum (Totals.shipping t));
        ("total", JNum (Totals.total t));
        ("itemCount", JNum (Totals.itemCount t))]%string.

Definition json_to_totals (j : json) : option Totals.t :=
  match j with
  | JObj fs =>
      '(s, fs) ← take_num "subtotal" fs;
      '(h, fs) ← take_num "shipping" fs;
      '(t, fs) ← take_num "total" fs;
      '(c, fs) ← take_num "itemCount" fs;
      match fs with
      | [] => Some (Totals.mk s h t c)
      | _ :: _ => None
      end
  | _ => None
  end.

Definition order_to_json (o : Order.t) : json :=
  JObj [("orderNumber", JStr (Order.orderNumber o));
        ("items", items_to_json (Order.items o));
        ("totals", totals_to_json (Order.totals o));
        ("date", JStr (Order.date o))]%string.

Definition json_to_order (j : json) : option Order.t :=
  match j with
  | JObj [(k1, JStr n); (k2, ji); (k3, jt); (k4, JStr d)] =>
      if decide ([k1; k2; k3; k4] = ["orderNumber"; "items"; "totals"; "date"]%string)
      then items ← json_to_items ji;
           totals ← json_to_totals jt;
           Some (Order.mk n items totals d)
      else None
  | _ => None
  end.

(** ** The browser state the script acts on *)

(** The text of a [.cart-count] element: the item count, or the empty
    string. *)
Inductive badge :=
| Shown (n : number)
| Blank.

Record World := mkWorld {
  localStorage : gmap string stored;
  cart_count : list badge
}.

Definition setItem (k : string) (s : stored) (w : World) : World :=
  mkWorld (<[k := s]> (localStorage w)) (cart_count w).

Definition removeItem_storage (k : string) (w : World) : World :=
  mkWorld (delete k (localStorage w)) (cart_count w).

(** [a || b] where [a] is [null] or a number and [b] a number. *)
Definition or_else (a : option number) (b : number) : number :=
  match a with
  | Some n => if num_truthy n then n else b
  | None => b
  end.

(** String conversion of a property holding [null] or a number, given the
    conversion of numbers. *)
Definition nullable_toString (number_toString : number -> string) (o : option number) : string :=
  match o with
  | Some n => number_toString n
  | None => "null"
  end.

(** The double quote character, for the HTML fragments. *)
Definition dq : string := String (Ascii.ascii_of_nat 34) EmptyString.

(** The line feed character. *)
Definition nl : string := String (Ascii.ascii_of_nat 10) EmptyString.

(** * [src/js/cart.js] *)

Module CartJs.

(** ** [Cart] *)

Definition STORAGE_KEY : string := "hischildren_cart".
Definition ORDER_KEY : string := "hischildren_last_order".

Definition getItems (w : World) : option (list Item.t) :=
  match localStorage w !! STORAGE_KEY with
  | None => Some []
  | Some items =>
      match JSON_parse items with
      | Some j => json_to_items j
      | None => Some []
      end
  end.

Definition getTotals (w : World) : option Totals.t :=
  items ← getItems w;
  let subtotal := fold_left (fun sum item => sum + Item.price item * Item.quantity item) items 0 in
  let shipping := if num_gt subtotal 0 then (if num_ge subtotal 75 then 0 else 8.95) else 0 in
  let total := subtotal + shipping in
  Some (Totals.mk subtotal shipping total
          (fold_left (fun sum item => sum + Item.quantity item) items 0)).

Definition updateCartCount (w : World) : option World :=
  t ← getTotals w;
  let itemCount := Totals.itemCount t in
  Some (mkWorld (localStorage w)
          (map (fun _ => if num_gt itemCount 0 then Shown itemCount else Blank) (cart_count w))).

Definition saveItems (items : list Item.t) (w : World) : option World :=
  updateCartCount (setItem STORAGE_KEY (JSON_stringify (items_to_json items)) w).

Definition addItem (product : Product.t) (quantity : number) (w : World) : option (list Item.t * World) :=
  items ← getItems w;
  let existingIndex := findIndex (fun item => bool_decide (Item.id item = Product.id product)) items in
  let effectivePrice := or_else (Product.salePrice product) (Product.price product) in
  let items :=
    if (existingIndex >? -1)%Z
    then alter (fun it => Item.with_quantity (Item.quantity it + quantity) it) (Z.to_nat existingIndex) items
    else items ++ [Item.mk (Product.id product) (Product.name product) effectivePrice
                     (Product.price product) (Product.salePrice product)
                     (Product.image product) (Product.collection product) quantity] in
  w ← saveItems items w;
  Some (items, w).

(** The default argument: [addItem(product)] is [addItem(product, 1)]. *)
Definition addItem_default (product : Product.t) : World -> option (list Item.t * World) :=
  addItem product 1.

Definition updateQuantity (productId : string) (quantity : number) (w : World) : option (list Item.t * World) :=
  items ← getItems w;
  let index := findIndex (fun item => bool_decide (Item.id item = productId)) items in
  if (index >? -1)%Z
  then
    let items :=
      if num_le quantity 0
      then delete (Z.to_nat index) items
      else alter (Item.with_quantity quantity) (Z.to_nat index) items in
    w ← saveItems items w;
    Some (items, w)
  else Some (items, w).

Definition removeItem (productId : string) (w : World) : option (list Item.t * World) :=
  items ← getItems w;
  let items := filter (fun item => Item.id item ≠ productId) items in
  w ← saveItems items w;
  Some (items, w).

Definition clear (w : World) : option World :=
  updateCartCount (removeItem_storage STORAGE_KEY w).

(** [now] is the reading of [Date.now()], [iso] that of
    [new Date().toISOString()]. *)
Definition saveOrder (now : N) (iso : string) (w : World) : option (Order.t * World) :=
  items ← getItems w;
  totals ← getTotals w;
  let orderNumber := ("HC" ++ slice_last 8 (nat_toString now))%string in
  let order := Order.mk orderNumber items totals iso in
  Some (order, setItem ORDER_KEY (JSON_stringify (order_to_json order)) w).

(** The inner [None] is the [null] result. *)
Definition getLastOrder (w : World) : option (option Order.t) :=
  match localStorage w !! ORDER_KEY with
  | None => Some None
  | Some order =>
      match JSON_parse order with
      | Some j => Some <$> json_to_order j
      | None => Some None
      end
  end.

(** ** Catalogue lookups *)

Section Catalogue.

(** The current contents of the [Products] and [Collections] tables. *)
Variable Products : gmap string Product.t.
Variable Collections : gmap string Collection.t.

(** [None] is the [null] result. *)
Definition getProduct (id : string) : option Product.t := Products !! id.

Definition getCollection (id : string) : option Collection.t := Collections !! id.

(** [filter(Boolean)] on an array of products and [undefined]s. *)
Fixpoint filter_Boolean (l : list (option Product.t)) : list Product.t :=
  match l with
  | [] => []
  | Some p :: r => p :: filter_Boolean r
  | None :: r => filter_Boolean r
  end.

Definition getCollectionProducts (collectionId : string) : list Product.t :=
  match Collections !! collectionId with
  | None => []
  | Some collection =>
      filter_Boolean (map (fun id => Products !! id) (Collection.products collection))
  end.

End Catalogue.

(** The same lookups with the tables read as the plain objects they are:
    below the own entries of a table lie the members of [Object.prototype].
    The definitions of the section above are their restriction to keys that
    are own entries or are not in [Object_prototype_names]. *)
Module Objects.

(** What [getProduct] returns besides [null], and what an element of the
    array of [getCollectionProducts] is: a product of the table or a member
    of [Object.prototype]. *)
Inductive entry :=
| Entry (product : Product.t)
| Builtin (name : string).

(** The outcome of [getCollectionProducts]: the array, or the [TypeError] of
    [collection.products.map] when [collection.products] is [undefined]. *)
Inductive outcome :=
| Returns (products : list entry)
| TypeError.

Section Tables.

Variable Products : gmap string Product.t.
Variable Collections : gmap string Collection.t.

Definition getProduct (id : string) : option entry :=
  match get_property Products id with
  | Own product => Some (Entry product)
  | Inherited name => Some (Builtin name)
  | Undefined => None
  end.

Fixpoint filter_Boolean (l : list (property Product.t)) : list entry :=
  match l with
  | [] => []
  | Own product :: r => Entry product :: filter_Boolean r
  | Inherited name :: r => Builtin name :: filter_Boolean r
  | Undefined :: r => filter_Boolean r
  end.

Definition getCollectionProducts (collectionId : string) : outcome :=
  match get_property Collections collectionId with
  | Undefined => Returns []
  | Inherited _ => TypeError
  | Own collection =>
      Returns (filter_Boolean (map (fun id => get_property Products id)
                                 (Collection.products collection)))
  end.

End Tables.

End Objects.

(** [initializeFallbackData]: the [Products] and [Collections] tables it
    installs. *)
Definition initializeFallbackData : gmap string Product.t * gmap string Collection.t :=
  ({[ "heritage-block-set" :=
        Product.mk "heritage-block-set" "The Heritage Block Set" 68 None
          "Heirloom Wooden" "heirloom-wooden" "images/heritage-block-set.jpg"
          "Hand-sanded maple blocks in timeless shapes, crafted to be passed down through generations."
          "Each block in this 24-piece set is cut from sustainably harvested maple and finished with natural beeswax." ]},
   {[ "heirloom-wooden" :=
        Collection.mk "heirloom-wooden" "Heirloom Wooden"
          "Timeless wooden toys crafted to be treasured and passed down through generations."
          "images/collection-heirloom-wooden.jpg"
          ["heritage-block-set"] ]})%string.

(** The module variables [Products], [Collections] and [dataLoaded]. *)
Record Catalogue := mkCatalogue {
  Products : gmap string Product.t;
  Collections : gmap string Collection.t;
  dataLoaded : bool
}.

(** Their values when the script is loaded. *)
Definition initial : Catalogue := mkCatalogue ∅ ∅ false.

(** [Collections[collection.id] = {...collection, products: ...}]. *)
Definition loaded_collection (data : Data.t) (collection : SourceCollection.t) : Collection.t :=
  Collection.mk (SourceCollection.id collection) (SourceCollection.name collection)
    (SourceCollection.description collection) (SourceCollection.image collection)
    (map Product.id
       (filter (fun p => Product.collectionSlug p = SourceCollection.id collection)
          (Data.products data))).

(** What a call of [loadProductData] that passed the [dataLoaded] guard does
    when its awaits settle: the body after [await response.json()], or the
    [catch] block.  [fetched] is the outcome of [fetch] followed by
    [response.json()]: the document, or [None] when either fails.  This part
    runs without interruption. *)
Definition loadProductData_settle (fetched : option Data.t) (c : Catalogue) : Catalogue :=
  match fetched with
  | Some data =>
      let Products :=
        fold_left (fun table product => <[Product.id product := product]> table)
          (Data.products data) (Products c) in
      let Collections :=
        fold_left (fun table collection =>
                     <[SourceCollection.id collection := loaded_collection data collection]> table)
          (Data.collections data) (Collections c) in
      mkCatalogue Products Collections true
  | None =>
      mkCatalogue (initializeFallbackData.1) (initializeFallbackData.2) true
  end.

(** [loadProductData] called while no other call is pending, and run until
    it settles: the guard, then the fetch of [fetch_json url], then
    [loadProductData_settle].  A call started while another one is pending
    reads the guard before the first one has set [dataLoaded]; such a call is
    the guard on the tables at its start and a [loadProductData_settle] on
    the tables at its end. *)
Definition loadProductData (fetch_json : string -> option Data.t) (basePath : string)
    (c : Catalogue) : Catalogue :=
  if dataLoaded c then c
  else loadProductData_settle (fetch_json (basePath ++ "data/products.json")%string) c.

(** ** Price helpers *)

Definition calculatePercentOff (originalPrice : number) (salePrice : option number) : number :=
  match salePrice with
  | None => 0
  | Some salePrice =>
      if negb (num_truthy salePrice) || num_ge salePrice originalPrice then 0
      else Math_round (((originalPrice - salePrice) / originalPrice) * 100)
  end.

Definition isOnSale (product : Product.t) : value :=
  match Product.salePrice product with
  | None => VNull
  | Some salePrice =>
      if num_truthy salePrice then VBool (num_lt salePrice (Product.price product))
      else VNum salePrice
  end.

Definition getEffectivePrice (product : Product.t) : value :=
  if truthy (isOnSale product) then nullable_value (Product.salePrice product)
  else VNum (Product.price product).

(** ** Rendering *)

Section Rendering.

(** The string conversion of numbers inside template literals, and
    [Number.prototype.toFixed]. *)
Variable number_toString : number -> string.
Variable toFixed : number -> nat -> string.

(** [Cart.formatPrice]. *)
Definition formatPrice (price : number) : string := ("$" ++ toFixed price 2)%string.

Definition renderPriceHTML (product : Product.t) (showSaleLabel : bool) : string :=
  if truthy (isOnSale product)
  then
    let percentOff := calculatePercentOff (Product.price product) (Product.salePrice product) in
    (nl ++
     "      <span class=" ++ dq ++ "price-wrapper price-on-sale" ++ dq ++ ">" ++ nl ++
     "        " ++ (if showSaleLabel then "<span class=" ++ dq ++ "sale-badge" ++ dq ++ ">Sale</span>" else "") ++ nl ++
     "        <span class=" ++ dq ++ "price-original" ++ dq ++ ">$" ++ number_toString (Product.price product) ++ "</span>" ++ nl ++
     "        <span class=" ++ dq ++ "price-sale" ++ dq ++ ">$" ++ nullable_toString number_toString (Product.salePrice product) ++ "</span>" ++ nl ++
     "        <span class=" ++ dq ++ "price-percent-off" ++ dq ++ ">" ++ number_toString percentOff ++ "% off</span>" ++ nl ++
     "      </span>" ++ nl ++
     "    ")%string
  else
    ("<span class=" ++ dq ++ "price-wrapper" ++ dq ++ ">$" ++ number_toString (Product.price product) ++ "</span>")%string.

Definition renderProductCard (product : Product.t) (basePath : string) : string :=
  let priceHTML :=
    if truthy (isOnSale product)
    then ("<p class=" ++ dq ++ "product-card-price price-on-sale" ++ dq ++ ">" ++ nl ++
          "        <span class=" ++ dq ++ "price-original" ++ dq ++ ">$" ++ number_toString (Product.price product) ++ "</span>" ++ nl ++
          "        <span class=" ++ dq ++ "price-sale" ++ dq ++ ">$" ++ nullable_toString number_toString (Product.salePrice product) ++ "</span>" ++ nl ++
          "        <span class=" ++ dq ++ "sale-badge" ++ dq ++ ">Sale</span>" ++ nl ++
          "       </p>")%string
    else ("<p class=" ++ dq ++ "product-card-price" ++ dq ++ ">$" ++ number_toString (Product.price product) ++ "</p>")%string in
  (nl ++
   "    <a href=" ++ dq ++ basePath ++ "products/" ++ Product.id product ++ ".html" ++ dq ++ " class=" ++ dq ++ "product-card" ++ (if truthy (isOnSale product) then " product-on-sale" else "") ++ dq ++ ">" ++ nl ++
   "      <div class=" ++ dq ++ "product-card-image" ++ dq ++ ">" ++ nl ++
   "        <img src=" ++ dq ++ basePath ++ Product.image product ++ dq ++ " alt=" ++ dq ++ Product.name product ++ dq ++ ">" ++ nl ++
   "      </div>" ++ nl ++
   "      <div class=" ++ dq ++ "product-card-info" ++ dq ++ ">" ++ nl ++
   "        <h3 class=" ++ dq ++ "product-card-name" ++ dq ++ ">" ++ Product.name product ++ "</h3>" ++ nl ++
   "        " ++ priceHTML ++ nl ++
   "      </div>" ++ nl ++
   "    </a>" ++ nl ++
   "  ")%string.

End Rendering.

End CartJs.

(** * [src/unnamed/part_000]: the copy with the inline catalogue *)

Module Part000.

(** ** [Cart] *)

Definition STORAGE_KEY : string := "hischildren_cart".
Definition ORDER_KEY : string := "hischildren_last_order".

Definition getItems (w : World) : option (list Item.t) :=
  match localStorage w !! STORAGE_KEY with
  | None => Some []
  | Some items =>
      match JSON_parse items with
      | Some j => json_to_items j
      | None => Some []
      end
  end.

Definition getTotals (w : World) : option Totals.t :=
  items ← getItems w;
  let subtotal := fold_left (fun sum item => sum + Item.price item * Item.quantity item) items 0 in
  let shipping := if num_gt subtotal 0 then (if num_ge subtotal 75 then 0 else 8.95) else 0 in
  let total := subtotal + shipping in
  Some (Totals.mk subtotal shipping total
          (fold_left (fun sum item => sum + Item.quantity item) items 0)).

Definition updateCartCount (w : World) : option World :=
  t ← getTotals w;
  let itemCount := Totals.itemCount t in
  Some (mkWorld (localStorage w)
          (map (fun _ => if num_gt itemCount 0 then Shown itemCount else Blank) (cart_count w))).

Definition saveItems (items : list Item.t) (w : World) : option World :=
  updateCartCount (setItem STORAGE_KEY (JSON_stringify (items_to_json items)) w).

Definition addItem (product : Product.t) (quantity : number) (w : World) : option (list Item.t * World) :=
  items ← getItems w;
  let existingIndex := findIndex (fun item => bool_decide (Item.id item = Product.id product)) items in
  let effectivePrice := or_else (Product.salePrice product) (Product.price product) in
  let items :=
    if (existingIndex >? -1)%Z
    then alter (fun it => Item.with_quantity (Item.quantity it + quantity) it) (Z.to_nat existingIndex) items
    else items ++ [Item.mk (Product.id product) (Product.name product) effectivePrice
                     (Product.price product) (Product.salePrice product)
                     (Product.image product) (Product.collection product) quantity] in
  w ← saveItems items w;
  Some (items, w).

(** The default argument: [addItem(product)] is [addItem(product, 1)]. *)
Definition addItem_default (product : Product.t) : World -> option (list Item.t * World) :=
  addItem product 1.

Definition updateQuantity (productId : string) (quantity : number) (w : World) : option (list Item.t * World) :=
  items ← getItems w;
  let index := findIndex (fun item => bool_decide (Item.id item = productId)) items in
  if (index >? -1)%Z
  then
    let items :=
      if num_le quantity 0
      then delete (Z.to_nat index) items
      else alter (Item.with_quantity quantity) (Z.to_nat index) items in
    w ← saveItems items w;
    Some (items, w)
  else Some (items, w).

Definition removeItem (productId : string) (w : World) : option (list Item.t * World) :=
  items ← getItems w;
  let items := filter (fun item => Item.id item ≠ productId) items in
  w ← saveItems items w;
  Some (items, w).

Definition clear (w : World) : option World :=
  updateCartCount (removeItem_storage STORAGE_KEY w).

(** [now] is the reading of [Date.now()], [iso] that of
    [new Date().toISOString()]. *)
Definition saveOrder (now : N) (iso : string) (w : World) : option (Order.t * World) :=
  items ← getItems w;
  totals ← getTotals w;
  let orderNumber := ("HC" ++ slice_last 8 (nat_toString now))%string in
  let order := Order.mk orderNumber items totals iso in
  Some (order, setItem ORDER_KEY (JSON_stringify (order_to_json order)) w).

(** The inner [None] is the [null] result. *)
Definition getLastOrder (w : World) : option (option Order.t) :=
  match localStorage w !! ORDER_KEY with
  | None => Some None
  | Some order =>
      match JSON_parse order with
      | Some j => Some <$> json_to_order j
      | None => Some None
      end
  end.

(** ** Catalogue lookups *)

Section Catalogue.

(** The [Products] and [Collections] tables, written inline in this copy. *)
Variable Products : gmap string Product.t.
Variable Collections : gmap string Collection.t.

(** [None] is the [null] result. *)
Definition getProduct (id : string) : option Product.t := Products !! id.

Definition getCollection (id : string) : option Collection.t := Collections !! id.

(** [filter(Boolean)] on an array of products and [undefined]s. *)
Fixpoint filter_Boolean (l : list (option Product.t)) : list Product.t :=
  match l with
  | [] => []
  | Some p :: r => p :: filter_Boolean r
  | None :: r => filter_Boolean r
  end.

Definition getCollectionProducts (collectionId : string) : list Product.t :=
  match Collections !! collectionId with
  | None => []
  | Some collection =>
      filter_Boolean (map (fun id => Products !! id) (Collection.products collection))
  end.

End Catalogue.

(** ** Price helpers *)

Definition calculatePercentOff (originalPrice : number) (salePrice : option number) : number :=
  match salePrice with
  | None => 0
  | Some salePrice =>
      if negb (num_truthy salePrice) || num_ge salePrice originalPrice then 0
      else Math_round (((originalPrice - salePrice) / originalPrice) * 100)
  end.

Definition isOnSale (product : Product.t) : value :=
  match Product.salePrice product with
  | None => VNull
  | Some salePrice =>
      if num_truthy salePrice then VBool (num_lt salePrice (Product.price product))
      else VNum salePrice
  end.

Definition getEffectivePrice (product : Product.t) : value :=
  if truthy (isOnSale product) then nullable_value (Product.salePrice product)
  else VNum (Product.price product).

(** ** Rendering *)

Section Rendering.

(** The string conversion of numbers inside template literals, and
    [Number.prototype.toFixed]. *)
Variable number_toString : number -> string.
Variable toFixed : number -> nat -> string.

(** [Cart.formatPrice]. *)
Definition formatPrice (price : number) : string := ("$" ++ toFixed price 2)%string.

Definition renderPriceHTML (product : Product.t) (showSaleLabel : bool) : string :=
  if truthy (isOnSale product)
  then
    let percentOff := calculatePercentOff (Product.price product) (Product.salePrice product) in
    (nl ++
     "      <span class=" ++ dq ++ "price-wrapper price-on-sale" ++ dq ++ ">" ++ nl ++
     "        " ++ (if showSaleLabel then "<span class=" ++ dq ++ "sale-badge" ++ dq ++ ">Sale</span>" else "") ++ nl ++
     "        <span class=" ++ dq ++ "price-original" ++ dq ++ ">$" ++ number_toString (Product.price product) ++ "</span>" ++ nl ++
     "        <span class=" ++ dq ++ "price-sale" ++ dq ++ ">$" ++ nullable_toString number_toString (Product.salePrice product) ++ "</span>" ++ nl ++
     "        <span class=" ++ dq ++ "price-percent-off" ++ dq ++ ">" ++ number_toString percentOff ++ "% off</span>" ++ nl ++
     "      </span>" ++ nl ++
     "    ")%string
  else
    ("<span class=" ++ dq ++ "price-wrapper" ++ dq ++ ">$" ++ number_toString (Product.price product) ++ "</span>")%string.

Definition renderProductCard (product : Product.t) (basePath : string) : string :=
  let priceHTML :=
    if truthy (isOnSale product)
    then ("<p class=" ++ dq ++ "product-card-price price-on-sale" ++ dq ++ ">" ++ nl ++
          "        <span class=" ++ dq ++ "price-original" ++ dq ++ ">$" ++ number_toString (Product.price product) ++ "</span>" ++ nl ++
          "        <span class=" ++ dq ++ "price-sale" ++ dq ++ ">$" ++ nullable_toString number_toString (Product.salePrice product) ++ "</span>" ++ nl ++
          "        <span class=" ++ dq ++ "sale-badge" ++ dq ++ ">Sale</span>" ++ nl ++
          "       </p>")%string
    else ("<p class=" ++ dq ++ "product-card-price" ++ dq ++ ">$" ++ number_toString (Product.price product) ++ "</p>")%string in
  (nl ++
   "    <a href=" ++ dq ++ basePath ++ "products/" ++ Product.id product ++ ".html" ++ dq ++ " class=" ++ dq ++ "product-card" ++ (if truthy (isOnSale product) then " product-on-sale" else "") ++ dq ++ ">" ++ nl ++
   "      <div class=" ++ dq ++ "product-card-image" ++ dq ++ ">" ++ nl ++
   "        <img src=" ++ dq ++ basePath ++ Product.image product ++ dq ++ " alt=" ++ dq ++ Product.name product ++ dq ++ ">" ++ nl ++
   "      </div>" ++ nl ++
   "      <div class=" ++ dq ++ "product-card-info" ++ dq ++ ">" ++ nl ++
   "        <h3 class=" ++ dq ++ "product-card-name" ++ dq ++ ">" ++ Product.name product ++ "</h3>" ++ nl ++
   "        " ++ priceHTML ++ nl ++
   "      </div>" ++ nl ++
   "    </a>" ++ nl ++
   "  ")%string.

End Rendering.

End Part000.

(** * Sessions: sequences of mutating calls on the cart store *)

Inductive call :=
| AddItem (product : Product.t) (quantity : number)
| UpdateQuantity (productId : string) (quantity : number)
| RemoveItem (productId : string)
| Clear.

Definition step (c : call) (w : World) : option World :=
  match c with
  | AddItem product quantity => snd <$> CartJs.addItem product quantity w
  | UpdateQuantity productId quantity => snd <$> CartJs.updateQuantity productId quantity w
  | RemoveItem productId => snd <$> CartJs.removeItem productId w
  | Clear => CartJs.clear w
  end.

Fixpoint run (cs : list call) (w : World) : option World :=
  match cs with
  | [] => Some w
  | c :: cs => w ← step c w; run cs w
  end.

(** The page on first load: nothing stored, [.cart-count] elements as the
    markup has them. *)
Definition fresh (badges : list badge) : World := mkWorld ∅ badges.

(** A page load: the document is built anew, the storage stays. *)
Definition reload (badges : list badge) (w : World) : World :=
  mkWorld (localStorage w) badges.

(** * Vocabulary of the statements *)

(** [w'] is [w] after the cart slot was overwritten with [items]: the other
    slots and the number of [.cart-count] elements are those of [w]. *)
Definition saved (items : list Item.t) (w w' : World) : Prop :=
  localStorage w' = <[CartJs.STORAGE_KEY := JSON_stringify (items_to_json items)]> (localStorage w)
  ∧ length (cart_count w') = length (cart_count w).

(** A call whose quantity argument, if it is an [addItem], is positive. *)
Definition positive_call (c : call) : Prop :=
  match c with
  | AddItem _ quantity => 0 < quantity
  | _ => True
  end.

(** Two rows that differ at most in their quantity. *)
Definition same_snapshot (a b : Item.t) : Prop :=
  b = Item.with_quantity (Item.quantity b) a.

(** The sum over the line-items of [f]. *)
Fixpoint sum_over (f : Item.t -> number) (items : list Item.t) : number :=
  match items with
  | [] => 0
  | it :: r => f it + sum_over f r
  end.



(** Every [.cart-count] element of [w] shows the item count of [items]: the
    sum of the quantities when that is positive, nothing otherwise. *)
Definition badges_show (items : list Item.t) (w : World) : Prop :=
  Forall (fun b => match b with
                   | Shown n => 0 < n ∧ n == sum_over Item.quantity items
                   | Blank => sum_over Item.quantity items <= 0
                   end) (cart_count w).

(** The line-item [addItem] appends for a product not yet in the cart. *)
Definition snapshot (product : Product.t) (unitPrice quantity : number) : Item.t :=
  Item.mk (Product.id product) (Product.name product) unitPrice (Product.price product)
    (Product.salePrice product) (Product.image product) (Product.collection product) quantity.



(** "On sale" as the specification words it: the sale price is set and is
    below the base price. *)
Definition onSale_as_specified (product : Product.t) : bool :=
  match Product.salePrice product with
  | Some s => num_lt s (Product.price product)
  | None => false
  end.

(** The effective price as the specification words it: the sale price when
    it is set, positive and below the base price, the base price otherwise. *)
Definition effectivePrice_as_specified (product : Product.t) : number :=
  match Product.salePrice product with
  | Some s => if num_lt 0 s && num_lt s (Product.price product) then s else Product.price product
  | None => Product.price product
  end.

(** ** Sample inputs *)

(** The product of the fallback catalogue. *)
Definition heritage_block_set : Product.t :=
  Product.mk "heritage-block-set" "The Heritage Block Set" 68 None
    "Heirloom Wooden" "heirloom-wooden" "images/heritage-block-set.jpg"
    "Hand-sanded maple blocks in timeless shapes, crafted to be passed down through generations."
    "Each block in this 24-piece set is cut from sustainably harvested maple and finished with natural beeswax.".

(** A product on sale: 45, reduced to 36. *)
Definition woodland_animal_family : Product.t :=
  Product.mk "woodland-animal-family" "Woodland Animal Family" 45 (Some 36)
    "Heirloom Wooden" "heirloom-wooden" "images/woodland-animal-family.jpg"
    "A gentle gathering of forest friends carved from solid beechwood." "".

(** A product whose sale price is above its base price. *)
Definition sale_above_base : Product.t :=
  Product.mk "spinning-top" "Spinning Top" 50 (Some 68)
    "Heirloom Wooden" "heirloom-wooden" "images/spinning-top.jpg" "" "".

(** A product whose sale price is set to zero. *)
Definition sale_zero : Product.t :=
  Product.mk "paper-kite" "Paper Kite" 10 (Some 0)
    "Heirloom Wooden" "heirloom-wooden" "images/paper-kite.jpg" "" "".

(** * Properties *)

(** ** JSON views *)

Lemma json_item_roundtrip (it : Item.t) : json_to_item (item_to_json it) = Some it.
Proof. destruct it as [i n p o [s|] m c q]; reflexivity. Qed.

Lemma json_items_roundtrip (items : list Item.t) :
  json_to_items (items_to_json items) = Some items.
Proof.
  unfold json_to_items, items_to_json.
  apply mapM_Some. induction items as [|it items IH]; simpl.
  - constructor.
  - constructor; [apply json_item_roundtrip | exact IH].
Qed.

Lemma json_totals_roundtrip (t : Totals.t) : json_to_totals (totals_to_json t) = Some t.
Proof. destruct t; reflexivity. Qed.

Lemma json_order_roundtrip (o : Order.t) : json_to_order (order_to_json o) = Some o.
Proof.
  destruct o as [n items t d]. unfold order_to_json, json_to_order.
  cbn [Order.orderNumber Order.items Order.totals Order.date].
  rewrite decide_True by reflexivity.
  rewrite json_items_roundtrip, json_totals_roundtrip. reflexivity.
Qed.

(** ** Storage plumbing of [Cart] *)

Import CartJs.

Lemma keys_distinct : STORAGE_KEY ≠ ORDER_KEY.
Proof. discriminate. Qed.

Lemma getItems_stored (items : list Item.t) (ls : gmap string stored) (bs : list badge) :
  getItems (mkWorld (<[STORAGE_KEY := JSON_stringify (items_to_json items)]> ls) bs) = Some items.
Proof.
  unfold getItems. cbn [localStorage]. rewrite lookup_insert_eq.
  cbn [JSON_stringify JSON_parse]. apply json_items_roundtrip.
Qed.

Lemma getItems_removed (ls : gmap string stored) (bs : list badge) :
  getItems (mkWorld (delete STORAGE_KEY ls) bs) = Some [].
Proof. unfold getItems. cbn [localStorage]. by rewrite lookup_delete_eq. Qed.

Lemma getTotals_is_Some (w : World) (items : list Item.t) :
  getItems w = Some items → is_Some (getTotals w).
Proof. intros H. unfold getTotals. rewrite H. eexists. reflexivity. Qed.

Lemma updateCartCount_storage (w : World) (items : list Item.t) :
  getItems w = Some items →
  ∃ bs, updateCartCount w = Some (mkWorld (localStorage w) bs)
        ∧ length bs = length (cart_count w).
Proof.
  intros H. destruct (getTotals_is_Some w items H) as [t Ht].
  unfold updateCartCount. rewrite Ht. cbn. eexists. split; [reflexivity|].
  by rewrite length_map.
Qed.

Lemma saveItems_storage (items : list Item.t) (w : World) :
  ∃ bs, saveItems items w
        = Some (mkWorld (<[STORAGE_KEY := JSON_stringify (items_to_json items)]> (localStorage w)) bs)
        ∧ length bs = length (cart_count w).
Proof.
  unfold saveItems.
  destruct (updateCartCount_storage (setItem STORAGE_KEY (JSON_stringify (items_to_json items)) w) items)
    as (bs & H & Hl).
  { apply getItems_stored. }
  exists bs. split; [exact H | exact Hl].
Qed.

Lemma clear_storage (w : World) :
  ∃ bs, clear w = Some (mkWorld (delete STORAGE_KEY (localStorage w)) bs)
        ∧ length bs = length (cart_count w).
Proof.
  unfold clear.
  destruct (updateCartCount_storage (removeItem_storage STORAGE_KEY w) []) as (bs & H & Hl).
  { apply getItems_removed. }
  exists bs. split; [exact H | exact Hl].
Qed.

(** ** Persistence *)

(** C9. Round trip: for every sequence of line-items and every state of the
    page, [saveItems] succeeds, and [getItems] after a reload of the page
    (the storage left as it is) returns the same line-items in the same
    order. *)
Theorem saveItems_getItems_roundtrip (items : list Item.t) (w : World) (badges : list badge) :
  ∃ w', saveItems items w = Some w' ∧ getItems (reload badges w') = Some items.
Proof.
  destruct (saveItems_storage items w) as (bs & H & _).
  eexists. split; [exact H|]. apply getItems_stored.
Qed.

(** ** [findIndex] *)

Lemma findIndex_from_none {A} (f : A -> bool) (i : Z) (l : list A) :
  Forall (fun y => f y = false) l → findIndex_from f i l = (-1)%Z.
Proof.
  intros H. revert i. induction H as [|y l Hy _ IH]; intros i; simpl.
  - reflexivity.
  - rewrite Hy. apply IH.
Qed.

Lemma findIndex_from_first {A} (f : A -> bool) (i : Z) (pre : list A) (x : A) (post : list A) :
  Forall (fun y => f y = false) pre → f x = true →
  findIndex_from f i (pre ++ x :: post) = (i + Z.of_nat (length pre))%Z.
Proof.
  intros H Hx. revert i. induction H as [|y l Hy _ IH]; intros i; simpl.
  - rewrite Hx. lia.
  - rewrite Hy, IH. lia.
Qed.

Lemma first_match_cases {A} (f : A -> bool) (l : list A) :
  Forall (fun y => f y = false) l
  ∨ ∃ pre x post, l = pre ++ x :: post ∧ Forall (fun y => f y = false) pre ∧ f x = true.
Proof.
  induction l as [|y l IH].
  - left. constructor.
  - destruct (f y) eqn:Hy.
    + right. exists [], y, l. repeat split; [constructor | exact Hy].
    + destruct IH as [IH | (pre & x & post & -> & Hpre & Hx)].
      * left. constructor; assumption.
      * right. exists (y :: pre), x, post. repeat split; [constructor; assumption | exact Hx].
Qed.

Lemma no_match_id (pid : string) (items : list Item.t) :
  Forall (fun it => Item.id it ≠ pid) items →
  findIndex (fun item => bool_decide (Item.id item = pid)) items = (-1)%Z.
Proof.
  intros H. apply findIndex_from_none.
  eapply Forall_impl; [exact H|]. intros it Hne. by apply bool_decide_eq_false.
Qed.

Lemma first_match_id (pid : string) (pre : list Item.t) (it : Item.t) (post : list Item.t) :
  Forall (fun x => Item.id x ≠ pid) pre → Item.id it = pid →
  findIndex (fun item => bool_decide (Item.id item = pid)) (pre ++ it :: post)
  = Z.of_nat (length pre).
Proof.
  intros H Hid. unfold findIndex. rewrite findIndex_from_first.
  - lia.
  - eapply Forall_impl; [exact H|]. intros x Hne. by apply bool_decide_eq_false.
  - by apply bool_decide_eq_true.
Qed.

Lemma id_cases (pid : string) (items : list Item.t) :
  Forall (fun it => Item.id it ≠ pid) items
  ∨ ∃ pre it post, items = pre ++ it :: post
      ∧ Forall (fun x => Item.id x ≠ pid) pre ∧ Item.id it = pid.
Proof.
  destruct (first_match_cases (fun item => bool_decide (Item.id item = pid)) items)
    as [H | (pre & it & post & -> & Hpre & Hit)].
  - left. eapply Forall_impl; [exact H|]. intros it Hf. by apply bool_decide_eq_false in Hf.
  - right. exists pre, it, post. repeat split.
    + eapply Forall_impl; [exact Hpre|]. intros x Hf. by apply bool_decide_eq_false in Hf.
    + by apply bool_decide_eq_true in Hit.
Qed.

(** ** The mutating operations, case by case *)

Ltac index_absent := change ((-1 >? -1)%Z) with false; cbv iota.

Ltac index_found :=
  replace (Z.of_nat (length _) >? -1)%Z with true by (symmetry; apply Z.gtb_lt; lia);
  rewrite Nat2Z.id; cbv iota.

Lemma saved_getItems (items : list Item.t) (w w' : World) :
  saved items w w' → getItems w' = Some items.
Proof.
  intros [Hs _]. destruct w' as [ls bs]. cbn in Hs. subst ls. apply getItems_stored.
Qed.

Lemma saved_other_slot (items : list Item.t) (w w' : World) (k : string) :
  saved items w w' → k ≠ STORAGE_KEY → localStorage w' !! k = localStorage w !! k.
Proof. intros [Hs _] Hk. rewrite Hs. by rewrite lookup_insert_ne. Qed.

Lemma saveItems_saved (items : list Item.t) (w : World) :
  ∃ w', saveItems items w = Some w' ∧ saved items w w'.
Proof.
  destruct (saveItems_storage items w) as (bs & H & Hl).
  eexists. split; [exact H|]. split; [reflexivity | exact Hl].
Qed.

Lemma addItem_fresh (product : Product.t) (quantity : number) (w : World) (items : list Item.t) :
  getItems w = Some items →
  Forall (fun it => Item.id it ≠ Product.id product) items →
  let items' :=
    items ++ [snapshot product (or_else (Product.salePrice product) (Product.price product)) quantity] in
  ∃ w', addItem product quantity w = Some (items', w') ∧ saved items' w w'.
Proof.
  intros Hg Hf items'. unfold addItem. rewrite Hg. cbn [mbind option_bind].
  rewrite (no_match_id _ _ Hf). index_absent.
  destruct (saveItems_saved items' w) as (w' & Hs & Hsv).
  exists w'. split; [|exact Hsv].
  unfold items', snapshot in Hs. rewrite Hs. reflexivity.
Qed.

Lemma addItem_existing (product : Product.t) (quantity : number) (w : World)
    (pre : list Item.t) (it : Item.t) (post : list Item.t) :
  getItems w = Some (pre ++ it :: post) →
  Forall (fun x => Item.id x ≠ Product.id product) pre →
  Item.id it = Product.id product →
  let items' := pre ++ Item.with_quantity (Item.quantity it + quantity) it :: post in
  ∃ w', addItem product quantity w = Some (items', w') ∧ saved items' w w'.
Proof.
  intros Hg Hpre Hit items'. unfold addItem. rewrite Hg. cbn [mbind option_bind].
  rewrite (first_match_id _ _ _ _ Hpre Hit).
  index_found.
  replace (length pre) with (length pre + 0)%nat by lia.
  rewrite alter_app_r. cbn [alter list_alter].
  destruct (saveItems_saved items' w) as (w' & Hs & Hsv).
  exists w'. split; [|exact Hsv].
  unfold items' in Hs. rewrite Hs. reflexivity.
Qed.

Lemma updateQuantity_absent (productId : string) (quantity : number) (w : World) (items : list Item.t) :
  getItems w = Some items →
  Forall (fun it => Item.id it ≠ productId) items →
  updateQuantity productId quantity w = Some (items, w).
Proof.
  intros Hg Hf. unfold updateQuantity. rewrite Hg. cbn [mbind option_bind].
  rewrite (no_match_id _ _ Hf). index_absent. reflexivity.
Qed.

Lemma updateQuantity_remove (productId : string) (quantity : number) (w : World)
    (pre : list Item.t) (it : Item.t) (post : list Item.t) :
  getItems w = Some (pre ++ it :: post) →
  Forall (fun x => Item.id x ≠ productId) pre →
  Item.id it = productId →
  quantity <= 0 →
  ∃ w', updateQuantity productId quantity w = Some (pre ++ post, w') ∧ saved (pre ++ post) w w'.
Proof.
  intros Hg Hpre Hit Hq. unfold updateQuantity. rewrite Hg. cbn [mbind option_bind].
  rewrite (first_match_id _ _ _ _ Hpre Hit).
  index_found.
  replace (num_le quantity 0) with true by (symmetry; by apply Qle_bool_iff).
  rewrite delete_middle.
  destruct (saveItems_saved (pre ++ post) w) as (w' & Hs & Hsv).
  exists w'. split; [|exact Hsv]. rewrite Hs. reflexivity.
Qed.

Lemma updateQuantity_set (productId : string) (quantity : number) (w : World)
    (pre : list Item.t) (it : Item.t) (post : list Item.t) :
  getItems w = Some (pre ++ it :: post) →
  Forall (fun x => Item.id x ≠ productId) pre →
  Item.id it = productId →
  0 < quantity →
  let items' := pre ++ Item.with_quantity quantity it :: post in
  ∃ w', updateQuantity productId quantity w = Some (items', w') ∧ saved items' w w'.
Proof.
  intros Hg Hpre Hit Hq items'. unfold updateQuantity. rewrite Hg. cbn [mbind option_bind].
  rewrite (first_match_id _ _ _ _ Hpre Hit).
  index_found.
  replace (num_le quantity 0) with false.
  2:{ symmetry. apply not_true_is_false. intros Hle. apply Qle_bool_iff in Hle.
      apply Qlt_not_le in Hq. contradiction. }
  replace (length pre) with (length pre + 0)%nat by lia.
  rewrite alter_app_r. cbn [alter list_alter].
  destruct (saveItems_saved items' w) as (w' & Hs & Hsv).
  exists w'. split; [|exact Hsv]. unfold items' in Hs. rewrite Hs. reflexivity.
Qed.

Lemma removeItem_filter (productId : string) (w : World) (items : list Item.t) :
  getItems w = Some items →
  let items' := filter (fun item => Item.id item ≠ productId) items in
  ∃ w', removeItem productId w = Some (items', w') ∧ saved items' w w'.
Proof.
  intros Hg items'. unfold removeItem. rewrite Hg. cbn [mbind option_bind].
  destruct (saveItems_saved items' w) as (w' & Hs & Hsv).
  exists w'. split; [|exact Hsv]. unfold items' in Hs. rewrite Hs. reflexivity.
Qed.

(** ** Comparisons of numbers *)

Lemma num_le_iff (a b : number) : num_le a b = true ↔ a <= b.
Proof. apply Qle_bool_iff. Qed.

Lemma num_lt_iff (a b : number) : num_lt a b = true ↔ a < b.
Proof.
  unfold num_lt. rewrite negb_true_iff. split.
  - intros H. apply Qnot_le_lt. intros Hle. apply Qle_bool_iff in Hle. congruence.
  - intros H. apply not_true_is_false. intros Hle. apply Qle_bool_iff in Hle.
    apply Qlt_not_le in H. contradiction.
Qed.

Lemma num_lt_false_iff (a b : number) : num_lt a b = false ↔ b <= a.
Proof.
  unfold num_lt. rewrite negb_false_iff. apply Qle_bool_iff.
Qed.

Lemma num_truthy_iff (n : number) : num_truthy n = true ↔ ¬ n == 0.
Proof.
  unfold num_truthy. rewrite negb_true_iff. split.
  - intros H. by apply Qeq_bool_neq.
  - intros H. apply not_true_is_false. intros He. apply Qeq_bool_iff in He. contradiction.
Qed.

(** ** Sessions *)

Lemma getItems_fresh (badges : list badge) : getItems (fresh badges) = Some [].
Proof. reflexivity. Qed.

Lemma ids_with_quantity (q : number) (pre : list Item.t) (it : Item.t) (post : list Item.t) :
  Item.id <$> (pre ++ Item.with_quantity q it :: post) = Item.id <$> (pre ++ it :: post).
Proof. by rewrite !fmap_app. Qed.

(** Every call succeeds on a cart that holds line-items, leaves a cart that
    holds line-items, writes no other slot than the cart's, and keeps the
    product ids of the rows distinct. *)
Lemma step_typed (c : call) (w : World) (items : list Item.t) :
  getItems w = Some items →
  ∃ w' items', step c w = Some w' ∧ getItems w' = Some items'
    ∧ (∀ k, k ≠ STORAGE_KEY → localStorage w' !! k = localStorage w !! k)
    ∧ (NoDup (Item.id <$> items) → NoDup (Item.id <$> items')).
Proof.
  intros Hg. destruct c as [product quantity | productId quantity | productId | ]; cbn [step].
  - destruct (id_cases (Product.id product) items) as [Hf | (pre & it & post & -> & Hpre & Hit)].
    + destruct (addItem_fresh product quantity w items Hg Hf) as (w' & -> & Hsv).
      eexists _, _. split; [reflexivity|]. split; [exact (saved_getItems _ _ _ Hsv)|].
      split; [intros k Hk; exact (saved_other_slot _ _ _ k Hsv Hk)|].
      intros Hnd. rewrite fmap_app. apply NoDup_app. split; [exact Hnd|]. split.
      * intros x Hx Hx'. apply list_elem_of_fmap in Hx as (y & -> & Hy).
        rewrite Forall_forall in Hf. apply (Hf y Hy).
        cbn in Hx'. by apply list_elem_of_singleton in Hx'.
      * cbn. apply NoDup_singleton.
    + destruct (addItem_existing product quantity w pre it post Hg Hpre Hit) as (w' & -> & Hsv).
      eexists _, _. split; [reflexivity|]. split; [exact (saved_getItems _ _ _ Hsv)|].
      split; [intros k Hk; exact (saved_other_slot _ _ _ k Hsv Hk)|].
      by rewrite ids_with_quantity.
  - destruct (id_cases productId items) as [Hf | (pre & it & post & -> & Hpre & Hit)].
    + rewrite (updateQuantity_absent productId quantity w items Hg Hf).
      eexists _, _. split; [reflexivity|]. split; [exact Hg|]. split; [reflexivity | tauto].
    + destruct (Qlt_le_dec 0 quantity) as [Hq | Hq].
      * destruct (updateQuantity_set productId quantity w pre it post Hg Hpre Hit Hq) as (w' & -> & Hsv).
        eexists _, _. split; [reflexivity|]. split; [exact (saved_getItems _ _ _ Hsv)|].
        split; [intros k Hk; exact (saved_other_slot _ _ _ k Hsv Hk)|].
        by rewrite ids_with_quantity.
      * destruct (updateQuantity_remove productId quantity w pre it post Hg Hpre Hit Hq) as (w' & -> & Hsv).
        eexists _, _. split; [reflexivity|]. split; [exact (saved_getItems _ _ _ Hsv)|].
        split; [intros k Hk; exact (saved_other_slot _ _ _ k Hsv Hk)|].
        intros Hnd. eapply sublist_NoDup; [exact Hnd|].
        apply fmap_sublist. apply sublist_app; [reflexivity|]. by apply sublist_cons.
  - destruct (removeItem_filter productId w items Hg) as (w' & -> & Hsv).
    eexists _, _. split; [reflexivity|]. split; [exact (saved_getItems _ _ _ Hsv)|].
    split; [intros k Hk; exact (saved_other_slot _ _ _ k Hsv Hk)|].
    intros Hnd. eapply sublist_NoDup; [exact Hnd|].
    apply fmap_sublist. apply sublist_filter.
  - destruct (clear_storage w) as (bs & -> & _).
    eexists _, []. split; [reflexivity|]. split; [apply getItems_removed|].
    split; [|intros _; constructor].
    intros k Hk. cbn [localStorage]. by rewrite lookup_delete_ne.
Qed.

Lemma run_typed (cs : list call) (w : World) (items : list Item.t) :
  getItems w = Some items →
  ∃ w' items', run cs w = Some w' ∧ getItems w' = Some items'
    ∧ (∀ k, k ≠ STORAGE_KEY → localStorage w' !! k = localStorage w !! k)
    ∧ (NoDup (Item.id <$> items) → NoDup (Item.id <$> items')).
Proof.
  revert w items. induction cs as [|c cs IH]; intros w items Hg; cbn [run].
  - exists w, items. repeat split; [exact Hg | tauto].
  - destruct (step_typed c w items Hg) as (w1 & items1 & -> & Hg1 & Hk1 & Hn1).
    cbn [mbind option_bind].
    destruct (IH w1 items1 Hg1) as (w2 & items2 & Hr & Hg2 & Hk2 & Hn2).
    exists w2, items2. split; [exact Hr|]. split; [exact Hg2|]. split.
    + intros k Hk. rewrite (Hk2 k Hk). apply (Hk1 k Hk).
    + intros Hnd. apply Hn2, Hn1, Hnd.
Qed.

Lemma unique_row_split (pid : string) (pre : list Item.t) (it : Item.t) (post : list Item.t) :
  NoDup (Item.id <$> pre ++ it :: post) → Item.id it = pid →
  Forall (fun x => Item.id x ≠ pid) pre ∧ Forall (fun x => Item.id x ≠ pid) post.
Proof.
  rewrite fmap_app, fmap_cons. intros Hnd Hit.
  apply NoDup_app in Hnd as (_ & Hdis & Hnd). apply NoDup_cons in Hnd as (Hnotin & _).
  split; apply Forall_forall; intros x Hx Hid.
  - apply (Hdis (Item.id x)).
    + apply list_elem_of_fmap. eauto.
    + rewrite Hid, <- Hit. apply list_elem_of_here.
  - apply Hnotin. rewrite Hit, <- Hid. apply list_elem_of_fmap. eauto.
Qed.

Lemma absent_not_elem (pid : string) (items : list Item.t) :
  Forall (fun x => Item.id x ≠ pid) items ↔ pid ∉ (Item.id <$> items).
Proof.
  rewrite Forall_forall. split.
  - intros H Hin. apply list_elem_of_fmap in Hin as (y & -> & Hy). by apply (H y Hy).
  - intros H x Hx Hid. apply H. rewrite <- Hid. apply list_elem_of_fmap. eauto.
Qed.

(** ** Uniqueness of rows and [addItem] on a product already in the cart *)

(** C4. In every cart reached from the empty one by calls of [addItem],
    [updateQuantity], [removeItem] and [clear], the rows have distinct product
    ids.  In every cart, [addItem] for a product that has a row adds the
    given amount to the quantity of that row (the first of that id, the only
    one in a reachable cart), which keeps its position, its unit price and
    its original price, and no row is added.  Adding the same product with
    quantities 2 and then 3 to the empty cart leaves one row, of quantity
    5. *)
Theorem addItem_unique_rows :
  (∀ badges cs, ∃ w items,
      run cs (fresh badges) = Some w ∧ getItems w = Some items
      ∧ NoDup (Item.id <$> items))
  ∧ (∀ product quantity w pre it post,
      getItems w = Some (pre ++ it :: post) →
      (Product.id product ∉ Item.id <$> pre) →
      Item.id it = Product.id product →
      ∃ w' it',
        addItem product quantity w = Some (pre ++ it' :: post, w')
        ∧ getItems w' = Some (pre ++ it' :: post)
        ∧ Item.quantity it' = Item.quantity it + quantity
        ∧ Item.price it' = Item.price it
        ∧ Item.originalPrice it' = Item.originalPrice it
        ∧ Item.id it' = Item.id it)
  ∧ (∀ product badges, ∃ w unitPrice,
      run [AddItem product 2; AddItem product 3] (fresh badges) = Some w
      ∧ getItems w = Some [snapshot product unitPrice 5]).
Proof.
  split; [|split].
  - intros badges cs.
    destruct (run_typed cs (fresh badges) [] (getItems_fresh badges))
      as (w & items & Hr & Hg & _ & Hn).
    exists w, items. split; [exact Hr|]. split; [exact Hg|]. apply Hn. constructor.
  - intros product quantity w pre it post Hg Hpre Hit.
    apply absent_not_elem in Hpre.
    destruct (addItem_existing product quantity w pre it post Hg Hpre Hit) as (w' & Ha & Hsv).
    exists w', (Item.with_quantity (Item.quantity it + quantity) it).
    split; [exact Ha|]. split; [exact (saved_getItems _ _ _ Hsv)|]. by repeat split.
  - intros product badges. cbn [run].
    destruct (addItem_fresh product 2 (fresh badges) [] (getItems_fresh badges)) as (w1 & H1 & Hs1);
      [constructor|].
    cbn [app] in H1, Hs1. cbn [step]. rewrite H1. cbn [fmap option_fmap option_map mbind option_bind snd].
    pose proof (saved_getItems _ _ _ Hs1) as Hg1.
    destruct (addItem_existing product 3 w1 [] _ [] Hg1) as (w2 & H2 & Hs2);
      [constructor | reflexivity |].
    cbn [app] in H2, Hs2. rewrite H2. cbn [fmap option_fmap option_map snd].
    exists w2, (or_else (Product.salePrice product) (Product.price product)).
    split; [reflexivity|]. exact (saved_getItems _ _ _ Hs2).
Qed.

Lemma addItem_unique_rows_witness :
  ∃ w' it',
    addItem heritage_block_set 3
      (mkWorld {[ STORAGE_KEY := JSON_stringify (items_to_json
                   [snapshot woodland_animal_family 36 1; snapshot heritage_block_set 68 2]) ]} [])
    = Some ([snapshot woodland_animal_family 36 1] ++ it' :: [], w')
    ∧ getItems w' = Some ([snapshot woodland_animal_family 36 1] ++ it' :: [])
    ∧ Item.quantity it' = Item.quantity (snapshot heritage_block_set 68 2) + 3
    ∧ Item.price it' = Item.price (snapshot heritage_block_set 68 2)
    ∧ Item.originalPrice it' = Item.originalPrice (snapshot heritage_block_set 68 2)
    ∧ Item.id it' = Item.id (snapshot heritage_block_set 68 2).
Proof.
  apply (proj1 (proj2 addItem_unique_rows)).
  - reflexivity.
  - apply (bool_decide_unpack _). vm_compute. exact I.
  - reflexivity.
Defined.

(** ** [updateQuantity] *)

(** C5. For every cart and product id.  When no row has the id,
    [updateQuantity] changes nothing: it returns the line-items as they are
    and leaves the storage and the page untouched.  When a row has it (the
    first of that id, the only one when ids are distinct): with a quantity at
    most 0 the row is removed, the other rows stay in order, and in a cart of
    distinct ids no row of that id is left in what [getItems] returns next;
    with a positive quantity the row's quantity becomes exactly that
    quantity, in place, whatever it was before. *)
Theorem updateQuantity_spec (productId : string) (quantity : number) (w : World) (items : list Item.t) :
  getItems w = Some items →
  ((productId ∉ Item.id <$> items) →
     updateQuantity productId quantity w = Some (items, w))
  ∧ (∀ pre it post,
       items = pre ++ it :: post → (productId ∉ Item.id <$> pre) → Item.id it = productId →
       (quantity <= 0 →
          ∃ w', updateQuantity productId quantity w = Some (pre ++ post, w')
            ∧ getItems w' = Some (pre ++ post)
            ∧ (NoDup (Item.id <$> items) → productId ∉ Item.id <$> pre ++ post))
       ∧ (0 < quantity →
          ∃ w' it', updateQuantity productId quantity w = Some (pre ++ it' :: post, w')
            ∧ getItems w' = Some (pre ++ it' :: post)
            ∧ it' = Item.with_quantity quantity it
            ∧ Item.quantity it' = quantity)).
Proof.
  intros Hg. split.
  - intros Hnot. apply updateQuantity_absent; [exact Hg|]. by apply absent_not_elem.
  - intros pre it post -> Hpre Hit. apply absent_not_elem in Hpre. split.
    + intros Hq.
      destruct (updateQuantity_remove productId quantity w pre it post Hg Hpre Hit Hq)
        as (w' & Hu & Hsv).
      exists w'. split; [exact Hu|]. split; [exact (saved_getItems _ _ _ Hsv)|].
      intros Hnd. destruct (unique_row_split _ _ _ _ Hnd Hit) as [_ Hpost].
      apply absent_not_elem. by apply Forall_app.
    + intros Hq.
      destruct (updateQuantity_set productId quantity w pre it post Hg Hpre Hit Hq)
        as (w' & Hu & Hsv).
      exists w', (Item.with_quantity quantity it).
      split; [exact Hu|]. split; [exact (saved_getItems _ _ _ Hsv)|]. by split.
Qed.

Lemma updateQuantity_spec_witness :
  let items := [snapshot woodland_animal_family 36 1; snapshot heritage_block_set 68 2] in
  let w := mkWorld {[ STORAGE_KEY := JSON_stringify (items_to_json items) ]} [] in
  (∃ w', updateQuantity "heritage-block-set" 0 w = Some ([snapshot woodland_animal_family 36 1] ++ [], w')
     ∧ getItems w' = Some ([snapshot woodland_animal_family 36 1] ++ [])
     ∧ (NoDup (Item.id <$> items) →
        "heritage-block-set" ∉ Item.id <$> [snapshot woodland_animal_family 36 1] ++ []))
  ∧ updateQuantity "paper-kite" 4 w = Some (items, w).
Proof.
  intros items w.
  assert (Hg : getItems w = Some items) by reflexivity.
  split.
  - refine (proj1 (proj2 (updateQuantity_spec "heritage-block-set" 0 w items Hg)
                     [snapshot woodland_animal_family 36 1] (snapshot heritage_block_set 68 2) []
                     eq_refl _ eq_refl) _).
    + apply (bool_decide_unpack _). vm_compute. exact I.
    + discriminate.
  - apply (proj1 (updateQuantity_spec "paper-kite" 4 w items Hg)).
    apply (bool_decide_unpack _). vm_compute. exact I.
Defined.

(** ** The unit price snapshotted by [addItem] *)

(** The unit price of the row [addItem] appends is [salePrice || price]. *)
Lemma addItem_snapshot_price (product : Product.t) (quantity : number) (w : World) (items : list Item.t) :
  getItems w = Some items →
  (Product.id product ∉ Item.id <$> items) →
  ∃ w' it, addItem product quantity w = Some (items ++ [it], w')
    ∧ Item.price it = or_else (Product.salePrice product) (Product.price product)
    ∧ Item.originalPrice it = Product.price product.
Proof.
  intros Hg Hf. apply absent_not_elem in Hf.
  destruct (addItem_fresh product quantity w items Hg Hf) as (w' & Ha & _).
  eexists _, _. split; [exact Ha|]. by split.
Qed.

(** [salePrice || price] is the effective price when the sale price is
    [null], or positive and below the base price. *)
Lemma or_else_effectivePrice (product : Product.t) :
  (∀ s, Product.salePrice product = Some s → 0 < s ∧ s < Product.price product) →
  or_else (Product.salePrice product) (Product.price product) = effectivePrice_as_specified product
  ∧ getEffectivePrice product = VNum (effectivePrice_as_specified product).
Proof.
  intros H. unfold or_else, effectivePrice_as_specified, getEffectivePrice, isOnSale.
  destruct (Product.salePrice product) as [s|]; [|by split].
  destruct (H s eq_refl) as [H0 Hs].
  assert (Ht : num_truthy s = true).
  { apply num_truthy_iff. intros He. rewrite He in H0. by apply Qlt_irrefl in H0. }
  apply num_lt_iff in H0, Hs. rewrite Ht, Hs, H0. by split.
Qed.

(** C1, at a product whose sale price (68) is not below its base price (50):
    [addItem] snapshots the sale price as the unit price, where
    [getEffectivePrice] and the specified effective price are the base
    price. *)
Theorem addItem_snapshot_sale_above_base (badges : list badge) :
  ∃ w' it, addItem sale_above_base 1 (fresh badges) = Some ([it], w')
    ∧ Item.price it = 68
    ∧ getEffectivePrice sale_above_base = VNum 50
    ∧ effectivePrice_as_specified sale_above_base = 50.
Proof.
  destruct (addItem_fresh sale_above_base 1 (fresh badges) [] (getItems_fresh badges))
    as (w' & Ha & _); [constructor|].
  eexists _, _. split; [exact Ha|]. by repeat split.
Qed.

(** ** Rows of non-positive quantity *)

(** As long as [addItem] is called with positive quantities only, every row
    of every reachable cart has a positive quantity: [updateQuantity] and
    [removeItem] never leave a row of quantity 0 or less. *)
Lemma step_positive (c : call) (w : World) (items : list Item.t) :
  getItems w = Some items →
  Forall (fun it => 0 < Item.quantity it) items →
  positive_call c →
  ∃ w' items', step c w = Some w' ∧ getItems w' = Some items'
    ∧ Forall (fun it => 0 < Item.quantity it) items'.
Proof.
  intros Hg Hpos Hc.
  destruct c as [product quantity | productId quantity | productId | ]; cbn [step positive_call] in *.
  - destruct (id_cases (Product.id product) items) as [Hf | (pre & it & post & -> & Hpre & Hit)].
    + destruct (addItem_fresh product quantity w items Hg Hf) as (w' & -> & Hsv).
      eexists _, _. split; [reflexivity|]. split; [exact (saved_getItems _ _ _ Hsv)|].
      apply Forall_app. split; [exact Hpos|]. by repeat constructor.
    + destruct (addItem_existing product quantity w pre it post Hg Hpre Hit) as (w' & -> & Hsv).
      eexists _, _. split; [reflexivity|]. split; [exact (saved_getItems _ _ _ Hsv)|].
      apply Forall_app in Hpos as [Hp1 Hp2]. apply Forall_cons in Hp2 as [Hp2 Hp3].
      apply Forall_app. split; [exact Hp1|]. constructor; [|exact Hp3].
      cbn [Item.with_quantity Item.quantity]. lra.
  - destruct (id_cases productId items) as [Hf | (pre & it & post & -> & Hpre & Hit)].
    + rewrite (updateQuantity_absent productId quantity w items Hg Hf).
      eexists _, _. split; [reflexivity|]. split; [exact Hg | exact Hpos].
    + apply Forall_app in Hpos as [Hp1 Hp2]. apply Forall_cons in Hp2 as [Hp2 Hp3].
      destruct (Qlt_le_dec 0 quantity) as [Hq | Hq].
      * destruct (updateQuantity_set productId quantity w pre it post Hg Hpre Hit Hq) as (w' & -> & Hsv).
        eexists _, _. split; [reflexivity|]. split; [exact (saved_getItems _ _ _ Hsv)|].
        apply Forall_app. split; [exact Hp1|]. by constructor.
      * destruct (updateQuantity_remove productId quantity w pre it post Hg Hpre Hit Hq) as (w' & -> & Hsv).
        eexists _, _. split; [reflexivity|]. split; [exact (saved_getItems _ _ _ Hsv)|].
        by apply Forall_app.
  - destruct (removeItem_filter productId w items Hg) as (w' & -> & Hsv).
    eexists _, _. split; [reflexivity|]. split; [exact (saved_getItems _ _ _ Hsv)|].
    apply Forall_forall. intros it Hin. apply list_elem_of_filter in Hin as [_ Hin].
    rewrite Forall_forall in Hpos. by apply Hpos.
  - destruct (clear_storage w) as (bs & -> & _).
    eexists _, []. split; [reflexivity|]. split; [apply getItems_removed | constructor].
Qed.

Lemma run_positive (cs : list call) (badges : list badge) :
  Forall positive_call cs →
  ∃ w items, run cs (fresh badges) = Some w ∧ getItems w = Some items
    ∧ Forall (fun it => 0 < Item.quantity it) items.
Proof.
  assert (H : ∀ w items, getItems w = Some items →
              Forall (fun it => 0 < Item.quantity it) items →
              Forall positive_call cs →
              ∃ w' items', run cs w = Some w' ∧ getItems w' = Some items'
                ∧ Forall (fun it => 0 < Item.quantity it) items').
  { induction cs as [|c cs IH]; intros w items Hg Hpos Hcs; cbn [run].
    - by exists w, items.
    - apply Forall_cons in Hcs as [Hc Hcs].
      destruct (step_positive c w items Hg Hpos Hc) as (w1 & items1 & -> & Hg1 & Hpos1).
      cbn [mbind option_bind]. by apply (IH w1 items1). }
  intros Hcs. apply (H (fresh badges) [] (getItems_fresh badges)); [constructor | exact Hcs].
Qed.

(** C3, at the calls [addItem(product, 0)] and [addItem(product, -2)] on the
    empty cart: each succeeds and leaves a row whose quantity is the given
    one, 0 or -2. *)
Theorem addItem_nonpositive_quantity_row (product : Product.t) (badges : list badge) :
  (∃ w it, run [AddItem product 0] (fresh badges) = Some w
     ∧ getItems w = Some [it] ∧ Item.quantity it = 0)
  ∧ (∃ w it, run [AddItem product (-2)] (fresh badges) = Some w
     ∧ getItems w = Some [it] ∧ Item.quantity it = -2).
Proof.
  split.
  - destruct (addItem_fresh product 0 (fresh badges) [] (getItems_fresh badges))
      as (w' & Ha & Hsv); [constructor|].
    cbn [run step]. rewrite Ha. eexists _, _. split; [reflexivity|].
    split; [exact (saved_getItems _ _ _ Hsv) | reflexivity].
  - destruct (addItem_fresh product (-2) (fresh badges) [] (getItems_fresh badges))
      as (w' & Ha & Hsv); [constructor|].
    cbn [run step]. rewrite Ha. eexists _, _. split; [reflexivity|].
    split; [exact (saved_getItems _ _ _ Hsv) | reflexivity].
Qed.

(** ** [getTotals] *)

Lemma fold_left_sum_over (f : Item.t -> number) (items : list Item.t) (acc : number) :
  fold_left (fun sum item => sum + f item) items acc == acc + sum_over f items.
Proof.
  revert acc. induction items as [|it items IH]; intros acc; cbn [fold_left sum_over].
  - by rewrite Qplus_0_r.
  - rewrite IH. by rewrite Qplus_assoc.
Qed.

Lemma reduce_sum_over (f : Item.t -> number) (items : list Item.t) :
  fold_left (fun sum item => sum + f item) items 0 == sum_over f items.
Proof. rewrite fold_left_sum_over. apply Qplus_0_l. Qed.




(** ** The cart slot and the order slot *)

Lemma getLastOrder_slot (w1 w2 : World) :
  localStorage w1 !! ORDER_KEY = localStorage w2 !! ORDER_KEY →
  getLastOrder w1 = getLastOrder w2.
Proof. intros H. unfold getLastOrder. by rewrite H. Qed.

Lemma getItems_slot (w1 w2 : World) :
  localStorage w1 !! STORAGE_KEY = localStorage w2 !! STORAGE_KEY →
  getItems w1 = getItems w2.
Proof. intros H. unfold getItems. by rewrite H. Qed.

Lemma getLastOrder_stored (o : Order.t) (ls : gmap string stored) (bs : list badge) :
  getLastOrder (mkWorld (<[ORDER_KEY := JSON_stringify (order_to_json o)]> ls) bs) = Some (Some o).
Proof.
  unfold getLastOrder. cbn [localStorage]. rewrite lookup_insert_eq.
  cbn [JSON_stringify JSON_parse]. by rewrite json_order_roundtrip.
Qed.

(** C6. [clear] succeeds in every state, leaves the cart empty and the order
    slot as it was.  On a cart that holds line-items, [saveOrder] succeeds,
    writes the order slot only (the cart slot, the line-items and the page
    are as before), returns the snapshot of the current line-items and
    totals, and [getLastOrder] returns this snapshot after any further
    sequence of [addItem], [updateQuantity], [removeItem] and [clear]. *)
Theorem cart_and_order_slots_independent :
  (∀ w, ∃ w', clear w = Some w'
      ∧ getItems w' = Some []
      ∧ localStorage w' !! ORDER_KEY = localStorage w !! ORDER_KEY
      ∧ getLastOrder w' = getLastOrder w)
  ∧ (∀ now iso w items, getItems w = Some items →
      ∃ order w', saveOrder now iso w = Some (order, w')
        ∧ localStorage w' !! STORAGE_KEY = localStorage w !! STORAGE_KEY
        ∧ getItems w' = Some items
        ∧ cart_count w' = cart_count w
        ∧ Order.items order = items
        ∧ getTotals w = Some (Order.totals order)
        ∧ ∀ cs, ∃ w'', run cs w' = Some w'' ∧ getLastOrder w'' = Some (Some order)).
Proof.
  split.
  - intros w. destruct (clear_storage w) as (bs & Hc & _).
    eexists. split; [exact Hc|]. split; [apply getItems_removed|].
    assert (Hk : localStorage (mkWorld (delete STORAGE_KEY (localStorage w)) bs) !! ORDER_KEY
                 = localStorage w !! ORDER_KEY).
    { cbn [localStorage]. apply lookup_delete_ne. exact keys_distinct. }
    split; [exact Hk | exact (getLastOrder_slot _ _ Hk)].
  - intros now iso w items Hg.
    destruct (getTotals_is_Some w items Hg) as [t Ht].
    unfold saveOrder. rewrite Hg, Ht. cbn [mbind option_bind].
    eexists _, _. split; [reflexivity|].
    assert (Hk : localStorage (setItem ORDER_KEY
                   (JSON_stringify (order_to_json
                      (Order.mk ("HC" ++ slice_last 8 (nat_toString now)) items t iso))) w)
                 !! STORAGE_KEY = localStorage w !! STORAGE_KEY).
    { cbn [setItem localStorage]. apply lookup_insert_ne. intros H. by apply keys_distinct. }
    split; [exact Hk|].
    assert (Hg' := getItems_slot _ _ Hk). rewrite Hg in Hg'.
    split; [exact Hg'|]. split; [reflexivity|]. split; [reflexivity|]. split; [reflexivity|].
    intros cs.
    destruct (run_typed cs _ items Hg') as (w'' & items'' & Hr & _ & Hframe & _).
    exists w''. split; [exact Hr|].
    rewrite (getLastOrder_slot w'' _ (Hframe ORDER_KEY (fun H => keys_distinct (eq_sym H)))).
    apply getLastOrder_stored.
Qed.

Lemma cart_and_order_slots_independent_witness :
  ∃ order w', saveOrder 1762131600000 "2025-11-03T01:00:00.000Z"
                (mkWorld {[ STORAGE_KEY := JSON_stringify (items_to_json
                             [snapshot heritage_block_set 68 2]) ]} [Blank])
              = Some (order, w')
    ∧ Order.orderNumber order = "HC31600000"%string
    ∧ Order.items order = [snapshot heritage_block_set 68 2]
    ∧ ∃ w'', run [Clear; AddItem woodland_animal_family 1] w' = Some w''
        ∧ getLastOrder w'' = Some (Some order).
Proof.
  assert (Hg : getItems (mkWorld {[ STORAGE_KEY := JSON_stringify (items_to_json
                                     [snapshot heritage_block_set 68 2]) ]} [Blank])
               = Some [snapshot heritage_block_set 68 2]) by reflexivity.
  destruct (proj2 cart_and_order_slots_independent 1762131600000%N
              "2025-11-03T01:00:00.000Z"%string _ _ Hg)
    as (order & w' & Hs & _ & _ & _ & Hi & _ & Hrun).
  exists order, w'. split; [exact Hs|].
  split; [by injection Hs as <- _|]. split; [exact Hi|]. apply Hrun.
Defined.

(** ** [isOnSale] *)

(** C7, as the code has it.  [isOnSale] is truthy exactly when the sale price
    is set, is not 0 and is below the base price; otherwise it is falsy:
    [null] when the sale price is [null], the sale price itself when that is
    0, [false] when the sale price is not below the base price.  It agrees
    with the specified predicate on every product whose sale price is not
    0. *)
Theorem isOnSale_truthy_iff (product : Product.t) :
  (truthy (isOnSale product) = true
   ↔ ∃ s, Product.salePrice product = Some s ∧ ¬ s == 0 ∧ s < Product.price product)
  ∧ (Product.salePrice product = None → isOnSale product = VNull)
  ∧ (∀ s, Product.salePrice product = Some s → s == 0 → isOnSale product = VNum s)
  ∧ (∀ s, Product.salePrice product = Some s → ¬ s == 0 → Product.price product <= s →
       isOnSale product = VBool false)
  ∧ ((∀ s, Product.salePrice product = Some s → ¬ s == 0) →
       truthy (isOnSale product) = onSale_as_specified product).
Proof.
  unfold isOnSale, onSale_as_specified.
  destruct (Product.salePrice product) as [s|].
  - destruct (num_truthy s) eqn:Ht.
    + apply num_truthy_iff in Ht. cbn [truthy]. split; [|split; [|split; [|split]]].
      * rewrite num_lt_iff. split.
        -- intros Hlt. exists s. by repeat split.
        -- intros (s' & [= <-] & _ & Hlt). exact Hlt.
      * discriminate.
      * intros s' [= <-] Hz. contradiction.
      * intros s' [= <-] _ Hle. f_equal. by apply num_lt_false_iff.
      * reflexivity.
    + assert (Hz : s == 0).
      { apply Qeq_bool_iff. unfold num_truthy in Ht. by apply negb_false_iff in Ht. }
      cbn [truthy]. rewrite Ht. split; [|split; [|split; [|split]]].
      * split; [discriminate|]. intros (s' & [= <-] & Hnz & _). contradiction.
      * discriminate.
      * by intros s' [= <-] _.
      * intros s' [= <-] Hnz. contradiction.
      * intros H. destruct (H s eq_refl Hz).
  - cbn [truthy]. split; [|split; [|split; [|split]]]; try done.
    split; [discriminate|]. intros (s & [=] & _).
Qed.

Lemma isOnSale_truthy_iff_witness :
  truthy (isOnSale woodland_animal_family) = true
  ∧ truthy (isOnSale sale_above_base) = onSale_as_specified sale_above_base.
Proof.
  split.
  - apply (proj1 (isOnSale_truthy_iff woodland_animal_family)).
    exists 36. split; [reflexivity|]. split; [discriminate | reflexivity].
  - apply (proj2 (proj2 (proj2 (proj2 (isOnSale_truthy_iff sale_above_base))))).
    intros s [= <-]. discriminate.
Defined.

(** For a sale price set to 0 and a base price of 10 the specified predicate
    holds (the sale price is set and below the base price) and [isOnSale]
    returns the 0, which is falsy. *)
Lemma isOnSale_sale_price_zero :
  Product.salePrice sale_zero = Some 0
  ∧ onSale_as_specified sale_zero = true
  ∧ isOnSale sale_zero = VNum 0
  ∧ truthy (isOnSale sale_zero) = false.
Proof. by repeat split. Qed.

(** ** [getCollectionProducts] *)

(** On a collection id that is an own entry of [Collections] or is not
    inherited from [Object.prototype], and for listed product ids that are
    own entries of [Products] or are not inherited, the lookups on the plain
    objects are those on the maps: the products of the ids that resolve, in
    order, and the empty array for an unknown collection. *)
Lemma getCollectionProducts_outside_prototype (Products : gmap string Product.t)
    (Collections : gmap string Collection.t) (collectionId : string) :
  (is_Some (Collections !! collectionId) ∨ collectionId ∉ Object_prototype_names) →
  (∀ collection, Collections !! collectionId = Some collection →
     Forall (fun id => is_Some (Products !! id) ∨ id ∉ Object_prototype_names)
       (Collection.products collection)) →
  Objects.getCollectionProducts Products Collections collectionId
  = Objects.Returns (Objects.Entry <$> getCollectionProducts Products Collections collectionId).
Proof.
  intros Hc Hids. unfold Objects.getCollectionProducts, getCollectionProducts, get_property.
  destruct (Collections !! collectionId) as [collection|] eqn:Hl.
  - f_equal. specialize (Hids collection eq_refl).
    induction Hids as [|id ids Hid _ IH]; [reflexivity|].
    cbn [map]. destruct (Products !! id) as [p|] eqn:Hp; cbn [Objects.filter_Boolean filter_Boolean].
    + rewrite fmap_cons. by rewrite IH.
    + destruct Hid as [[? [=]] | Hid]. rewrite decide_False by exact Hid.
      cbn [Objects.filter_Boolean]. exact IH.
  - destruct Hc as [[? [=]] | Hc]. by rewrite decide_False by exact Hc.
Qed.

(** For a collection id inherited from [Object.prototype] that is not an own
    entry of [Collections], [getCollectionProducts] throws. *)
Lemma getCollectionProducts_inherited_name (Products : gmap string Product.t)
    (Collections : gmap string Collection.t) (name : string) :
  name ∈ Object_prototype_names → Collections !! name = None →
  Objects.getCollectionProducts Products Collections name = Objects.TypeError.
Proof.
  intros Hin Hl. unfold Objects.getCollectionProducts, get_property.
  rewrite Hl. by rewrite decide_True by exact Hin.
Qed.

(** C8, at the collection id [constructor], which no catalogue of the script
    lists: [Collections["constructor"]] is the function inherited from
    [Object.prototype], which is truthy and has no [products], so
    [getCollectionProducts] does not return the empty array but throws a
    [TypeError], on the tables the script starts with and on the fallback
    tables alike, whatever [Products] holds; and [getProduct("constructor")]
    returns that function, not [null].  An unknown id that is not inherited
    returns the empty array. *)
Theorem getCollectionProducts_constructor_throws (Products : gmap string Product.t) :
  Objects.getCollectionProducts Products (Collections initial) "constructor" = Objects.TypeError
  ∧ Objects.getCollectionProducts Products (initializeFallbackData.2) "constructor"
    = Objects.TypeError
  ∧ Objects.getProduct (initializeFallbackData.1) "constructor"
    = Some (Objects.Builtin "constructor")
  ∧ Objects.getCollectionProducts Products (initializeFallbackData.2) "no-such-collection"
    = Objects.Returns [].
Proof.
  split; [|split; [|split]].
  - apply getCollectionProducts_inherited_name; [|reflexivity].
    apply (bool_decide_unpack _). vm_compute. exact I.
  - apply getCollectionProducts_inherited_name; [|reflexivity].
    apply (bool_decide_unpack _). vm_compute. exact I.
  - reflexivity.
  - reflexivity.
Qed.

(** ** The two copies of the script *)

(** C10. Every operation of [Cart] and every helper of [src/js/cart.js]
    returns the same result and leaves the same state as the operation of
    the same name of [src/unnamed/part_000], for every argument, every state
    of the storage and the page, every reading of the clock, and every
    content of the [Products] and [Collections] tables. *)
Theorem copies_agree :
  (∀ w, CartJs.getItems w = Part000.getItems w)
  ∧ (∀ product quantity w, CartJs.addItem product quantity w = Part000.addItem product quantity w)
  ∧ (∀ productId quantity w,
       CartJs.updateQuantity productId quantity w = Part000.updateQuantity productId quantity w)
  ∧ (∀ productId w, CartJs.removeItem productId w = Part000.removeItem productId w)
  ∧ (∀ w, CartJs.getTotals w = Part000.getTotals w)
  ∧ (∀ w, CartJs.clear w = Part000.clear w)
  ∧ (∀ now iso w, CartJs.saveOrder now iso w = Part000.saveOrder now iso w)
  ∧ (∀ w, CartJs.getLastOrder w = Part000.getLastOrder w)
  ∧ (∀ toFixed price, CartJs.formatPrice toFixed price = Part000.formatPrice toFixed price)
  ∧ (∀ Products id, CartJs.getProduct Products id = Part000.getProduct Products id)
  ∧ (∀ Collections id, CartJs.getCollection Collections id = Part000.getCollection Collections id)
  ∧ (∀ Products Collections collectionId,
       CartJs.getCollectionProducts Products Collections collectionId
       = Part000.getCollectionProducts Products Collections collectionId)
  ∧ (∀ originalPrice salePrice,
       CartJs.calculatePercentOff originalPrice salePrice
       = Part000.calculatePercentOff originalPrice salePrice)
  ∧ (∀ product, CartJs.isOnSale product = Part000.isOnSale product)
  ∧ (∀ product, CartJs.getEffectivePrice product = Part000.getEffectivePrice product)
  ∧ (∀ number_toString product showSaleLabel,
       CartJs.renderPriceHTML number_toString product showSaleLabel
       = Part000.renderPriceHTML number_toString product showSaleLabel)
  ∧ (∀ number_toString product basePath,
       CartJs.renderProductCard number_toString product basePath
       = Part000.renderProductCard number_toString product basePath).
Proof.
  repeat match goal with |- _ ∧ _ => split end; intros; reflexivity.
Qed.

(** * Further properties of the script *)

(** ** [removeItem] *)

(** X1. [removeItem] succeeds on every cart and leaves exactly the rows
    whose id differs from the given one, in their order: no row of that id
    is left, even where several rows had it; for an id without a row the
    line-items are unchanged; and a second [removeItem] of the same id
    returns the same line-items. *)
Theorem removeItem_spec (productId : string) (w : World) (items : list Item.t) :
  getItems w = Some items →
  ∃ items' w', removeItem productId w = Some (items', w')
    ∧ getItems w' = Some items'
    ∧ (productId ∉ Item.id <$> items')
    ∧ items' `sublist_of` items
    ∧ (∀ it, it ∈ items' ↔ it ∈ items ∧ Item.id it ≠ productId)
    ∧ ((productId ∉ Item.id <$> items) → items' = items)
    ∧ ∃ w'', removeItem productId w' = Some (items', w'').
Proof.
  intros Hg.
  destruct (removeItem_filter productId w items Hg) as (w' & Hr & Hsv).
  set (items' := filter (fun item => Item.id item ≠ productId) items) in *.
  assert (Hg' := saved_getItems _ _ _ Hsv).
  assert (Hall : Forall (fun it => Item.id it ≠ productId) items').
  { apply Forall_forall. intros it Hin. by apply list_elem_of_filter in Hin as [? _]. }
  assert (Hfix : ∀ l, Forall (fun it => Item.id it ≠ productId) l →
                      filter (fun item => Item.id item ≠ productId) l = l).
  { induction 1 as [|x l Hx _ IH]; [reflexivity|].
    rewrite filter_cons_True by exact Hx. by rewrite IH. }
  exists items', w'. split; [exact Hr|]. split; [exact Hg'|].
  split; [by apply absent_not_elem|]. split; [apply sublist_filter|].
  split; [intros it; unfold items'; rewrite list_elem_of_filter; tauto|].
  split; [intros Hnot; apply Hfix; by apply absent_not_elem|].
  destruct (removeItem_filter productId w' items' Hg') as (w'' & Hr' & _).
  exists w''. rewrite Hr'. by rewrite (Hfix items' Hall).
Qed.

Lemma removeItem_spec_witness :
  let items := [snapshot woodland_animal_family 36 1; snapshot heritage_block_set 68 2;
                snapshot woodland_animal_family 36 4] in
  let w := mkWorld {[ STORAGE_KEY := JSON_stringify (items_to_json items) ]} [Blank] in
  ∃ items' w', removeItem "woodland-animal-family" w = Some (items', w')
    ∧ getItems w' = Some items'
    ∧ ("woodland-animal-family" ∉ Item.id <$> items')
    ∧ items' `sublist_of` items
    ∧ (∀ it, it ∈ items' ↔ it ∈ items ∧ Item.id it ≠ "woodland-animal-family")
    ∧ (("woodland-animal-family" ∉ Item.id <$> items) → items' = items)
    ∧ ∃ w'', removeItem "woodland-animal-family" w' = Some (items', w'').
Proof.
  intros items w. apply removeItem_spec. reflexivity.
Defined.

(** ** The item count shown in the header *)

Lemma saveItems_badges (items : list Item.t) (w : World) :
  ∃ w', saveItems items w = Some w' ∧ saved items w w' ∧ badges_show items w'.
Proof.
  unfold saveItems, updateCartCount, getTotals, setItem.
  destruct w as [ls bs]. cbn [localStorage cart_count].
  rewrite getItems_stored. cbn [mbind option_bind Totals.itemCount localStorage cart_count].
  eexists. split; [reflexivity|]. split.
  - split; [reflexivity|]. cbn [cart_count]. by rewrite length_map.
  - unfold badges_show. cbn [cart_count]. apply Forall_forall. intros b Hb.
    apply list_elem_of_fmap in Hb as (b0 & -> & _).
    pose proof (reduce_sum_over Item.quantity items) as Hsum.
    destruct (num_gt _ 0) eqn:Hgt.
    + apply num_lt_iff in Hgt. split; [exact Hgt | exact Hsum].
    + apply num_lt_false_iff in Hgt. by rewrite <- Hsum.
Qed.

Lemma addItem_total (product : Product.t) (quantity : number) (w : World) (items : list Item.t) :
  getItems w = Some items →
  ∃ items' w', addItem product quantity w = Some (items', w') ∧ saved items' w w'.
Proof.
  intros Hg.
  destruct (id_cases (Product.id product) items) as [Hf | (pre & it & post & -> & Hpre & Hit)].
  - destruct (addItem_fresh product quantity w items Hg Hf) as (w' & Ha & Hsv). eauto.
  - destruct (addItem_existing product quantity w pre it post Hg Hpre Hit) as (w' & Ha & Hsv). eauto.
Qed.

Lemma addItem_saveItems (product : Product.t) (quantity : number) (w w' : World) (items' : list Item.t) :
  addItem product quantity w = Some (items', w') → saveItems items' w = Some w'.
Proof.
  unfold addItem. destruct (getItems w) as [items|]; [|discriminate].
  cbn [mbind option_bind]. intros H.
  destruct (saveItems _ w) as [w1|] eqn:Hs; [|discriminate].
  cbn in H. injection H as <- <-. exact Hs.
Qed.

Lemma removeItem_saveItems (productId : string) (w w' : World) (items' : list Item.t) :
  removeItem productId w = Some (items', w') → saveItems items' w = Some w'.
Proof.
  unfold removeItem. destruct (getItems w) as [items|]; [|discriminate].
  cbn [mbind option_bind]. intros H.
  destruct (saveItems _ w) as [w1|] eqn:Hs; [|discriminate].
  cbn in H. injection H as <- <-. exact Hs.
Qed.

Lemma updateQuantity_saveItems (productId : string) (quantity : number) (w w' : World)
    (items items' : list Item.t) :
  getItems w = Some items →
  productId ∈ Item.id <$> items →
  updateQuantity productId quantity w = Some (items', w') → saveItems items' w = Some w'.
Proof.
  intros Hg Hin.
  destruct (id_cases productId items) as [Hf | (pre & it & post & -> & Hpre & Hit)].
  { apply absent_not_elem in Hf. contradiction. }
  unfold updateQuantity. rewrite Hg. cbn [mbind option_bind].
  rewrite (first_match_id _ _ _ _ Hpre Hit). index_found. intros H.
  destruct (saveItems _ w) as [w1|] eqn:Hs; [|discriminate].
  cbn in H. injection H as <- <-. exact Hs.
Qed.

(** X2. Every mutation that saves refreshes the header: after [addItem],
    after [removeItem], and after [updateQuantity] for a product that has a
    row, every [.cart-count] element shows the sum of the quantities of the
    new cart when that sum is positive and nothing otherwise; after [clear]
    every element shows nothing.  The elements themselves are neither added
    nor removed. *)
Theorem cart_count_refreshed :
  (∀ product quantity w items, getItems w = Some items →
     ∃ items' w', addItem product quantity w = Some (items', w')
       ∧ badges_show items' w' ∧ length (cart_count w') = length (cart_count w))
  ∧ (∀ productId w items, getItems w = Some items →
     ∃ items' w', removeItem productId w = Some (items', w')
       ∧ badges_show items' w' ∧ length (cart_count w') = length (cart_count w))
  ∧ (∀ productId quantity w items, getItems w = Some items →
     productId ∈ Item.id <$> items →
     ∃ items' w', updateQuantity productId quantity w = Some (items', w')
       ∧ badges_show items' w' ∧ length (cart_count w') = length (cart_count w))
  ∧ (∀ w, ∃ w', clear w = Some w'
       ∧ Forall (fun b => b = Blank) (cart_count w')
       ∧ length (cart_count w') = length (cart_count w)).
Proof.
  split; [|split; [|split]].
  - intros product quantity w items Hg.
    destruct (addItem_total product quantity w items Hg) as (items' & w' & Ha & _).
    destruct (saveItems_badges items' w) as (w2 & Hs & [_ Hl] & Hb).
    rewrite (addItem_saveItems _ _ _ _ _ Ha) in Hs. injection Hs as <-. eauto.
  - intros productId w items Hg.
    destruct (removeItem_filter productId w items Hg) as (w' & Hr & _).
    destruct (saveItems_badges (filter (fun item => Item.id item ≠ productId) items) w)
      as (w2 & Hs & [_ Hl] & Hb).
    rewrite (removeItem_saveItems _ _ _ _ Hr) in Hs. injection Hs as <-. eauto.
  - intros productId quantity w items Hg Hin.
    destruct (step_typed (UpdateQuantity productId quantity) w items Hg)
      as (w' & items' & Hstep & _).
    cbn [step] in Hstep.
    destruct (updateQuantity productId quantity w) as [[items1 w1]|] eqn:Hu; [|discriminate].
    destruct (saveItems_badges items1 w) as (w2 & Hs & [_ Hl] & Hb).
    rewrite (updateQuantity_saveItems _ _ _ _ _ _ Hg Hin Hu) in Hs. injection Hs as <-. eauto.
  - intros [ls bs]. unfold clear, updateCartCount, getTotals, removeItem_storage.
    cbn [localStorage cart_count].
    rewrite getItems_removed. cbn [mbind option_bind Totals.itemCount fold_left localStorage cart_count].
    eexists. split; [reflexivity|]. cbn [cart_count]. split; [|by rewrite length_map].
    apply Forall_forall. intros b Hb. by apply list_elem_of_fmap in Hb as (b0 & -> & _).
Qed.

Lemma cart_count_refreshed_witness :
  ∃ items' w',
    addItem heritage_block_set 3
      (mkWorld {[ STORAGE_KEY := JSON_stringify (items_to_json
                   [snapshot woodland_animal_family 36 1]) ]} [Blank; Shown 1])
    = Some (items', w')
    ∧ cart_count w' = [Shown (0 + 1 + 3); Shown (0 + 1 + 3)].
Proof.
  destruct (proj1 cart_count_refreshed heritage_block_set 3
              (mkWorld {[ STORAGE_KEY := JSON_stringify (items_to_json
                           [snapshot woodland_animal_family 36 1]) ]} [Blank; Shown 1])
              [snapshot woodland_animal_family 36 1]) as (items' & w' & Ha & _).
  - reflexivity.
  - exists items', w'. split; [exact Ha|].
    vm_compute in Ha. by injection Ha as <- <-.
Defined.

(** ** Missing and unreadable storage *)

(** X3. When the cart slot is missing or holds text that [JSON.parse]
    rejects, [getItems] returns the empty list, [getTotals] returns zeros,
    and [addItem] starts a new cart holding the added row only, overwriting
    the unreadable text.  When the order slot is missing or unreadable,
    [getLastOrder] returns [null]. *)
Theorem unreadable_storage_is_empty (w : World) :
  ((localStorage w !! STORAGE_KEY = None ∨ ∃ s, localStorage w !! STORAGE_KEY = Some (Garbled s)) →
     getItems w = Some []
     ∧ getTotals w = Some (Totals.mk 0 0 0 0)
     ∧ ∀ product quantity, ∃ w',
         addItem product quantity w
         = Some ([snapshot product (or_else (Product.salePrice product) (Product.price product))
                    quantity], w')
         ∧ getItems w'
           = Some [snapshot product (or_else (Product.salePrice product) (Product.price product))
                     quantity])
  ∧ ((localStorage w !! ORDER_KEY = None ∨ ∃ s, localStorage w !! ORDER_KEY = Some (Garbled s)) →
     getLastOrder w = Some None).
Proof.
  split.
  - intros Hslot.
    assert (Hg : getItems w = Some []).
    { unfold getItems. destruct Hslot as [-> | [s ->]]; reflexivity. }
    split; [exact Hg|]. split.
    + unfold getTotals. rewrite Hg. reflexivity.
    + intros product quantity.
      destruct (addItem_fresh product quantity w [] Hg) as (w' & Ha & Hsv); [constructor|].
      exists w'. split; [exact Ha | exact (saved_getItems _ _ _ Hsv)].
  - intros Hslot. unfold getLastOrder. destruct Hslot as [-> | [s ->]]; reflexivity.
Qed.

Lemma unreadable_storage_is_empty_witness :
  let w := mkWorld {[ STORAGE_KEY := Garbled "[{" ]} [] in
  getItems w = Some []
  ∧ getTotals w = Some (Totals.mk 0 0 0 0)
  ∧ ∀ product quantity, ∃ w',
      addItem product quantity w
      = Some ([snapshot product (or_else (Product.salePrice product) (Product.price product))
                 quantity], w')
      ∧ getItems w'
        = Some [snapshot product (or_else (Product.salePrice product) (Product.price product))
                  quantity].
Proof.
  intros w. apply (proj1 (unreadable_storage_is_empty w)).
  right. exists "[{"%string. reflexivity.
Defined.

(** ** Price helpers *)




(** X5. The two sale tests agree: whenever [isOnSale] is falsy for a
    product, [calculatePercentOff] of its price and sale price is 0, so no
    discount is computed for a product that is not shown as on sale. *)
Theorem not_on_sale_no_percent_off (product : Product.t) :
  truthy (isOnSale product) = false →
  calculatePercentOff (Product.price product) (Product.salePrice product) = 0.
Proof.
  unfold isOnSale, calculatePercentOff.
  destruct (Product.salePrice product) as [s|]; [|reflexivity].
  destruct (num_truthy s) eqn:Ht; [|reflexivity].
  cbn [truthy negb orb]. intros Hlt. apply num_lt_false_iff in Hlt.
  apply num_le_iff in Hlt. unfold num_ge. by rewrite Hlt.
Qed.

Lemma not_on_sale_no_percent_off_witness :
  calculatePercentOff (Product.price sale_above_base) (Product.salePrice sale_above_base) = 0.
Proof. apply not_on_sale_no_percent_off. reflexivity. Defined.

(** X6. [getEffectivePrice] always returns a number, never [null] or a
    boolean; the number is the sale price when [isOnSale] is truthy and the
    base price otherwise, and it never exceeds the base price. *)
Theorem getEffectivePrice_spec (product : Product.t) :
  ∃ n, getEffectivePrice product = VNum n
    ∧ n <= Product.price product
    ∧ (truthy (isOnSale product) = true → Product.salePrice product = Some n)
    ∧ (truthy (isOnSale product) = false → n = Product.price product).
Proof.
  unfold getEffectivePrice, isOnSale.
  destruct (Product.salePrice product) as [s|]; cbn [truthy nullable_value].
  - destruct (num_truthy s) eqn:Ht; cbn [truthy].
    + destruct (num_lt s (Product.price product)) eqn:Hlt.
      * apply num_lt_iff in Hlt. exists s. split; [reflexivity|].
        split; [by apply Qlt_le_weak|]. split; [reflexivity | discriminate].
      * exists (Product.price product). split; [reflexivity|].
        split; [apply Qle_refl|]. split; [discriminate | reflexivity].
    + rewrite Ht. exists (Product.price product). split; [reflexivity|].
      split; [apply Qle_refl|]. split; [discriminate | reflexivity].
  - exists (Product.price product). split; [reflexivity|].
    split; [apply Qle_refl|]. split; [discriminate | reflexivity].
Qed.

Lemma getEffectivePrice_spec_witness :
  ∃ n, getEffectivePrice woodland_animal_family = VNum n
    ∧ n <= Product.price woodland_animal_family
    ∧ Product.salePrice woodland_animal_family = Some n.
Proof.
  destruct (getEffectivePrice_spec woodland_animal_family) as (n & He & Hle & Hon & _).
  exists n. split; [exact He|]. split; [exact Hle|]. apply Hon. reflexivity.
Defined.

(** X7. For a product whose sale price is [null], is 0, or is below the base
    price, the unit price of the row that [addItem] appends is the
    [getEffectivePrice] of the product. *)
Theorem addItem_price_is_effective (product : Product.t) (quantity : number) (w : World)
    (items : list Item.t) :
  getItems w = Some items →
  (Product.id product ∉ Item.id <$> items) →
  (∀ s, Product.salePrice product = Some s → s == 0 ∨ s < Product.price product) →
  ∃ w' it, addItem product quantity w = Some (items ++ [it], w')
    ∧ getEffectivePrice product = VNum (Item.price it)
    ∧ Item.quantity it = quantity.
Proof.
  intros Hg Hnew Hsale. apply absent_not_elem in Hnew.
  destruct (addItem_fresh product quantity w items Hg Hnew) as (w' & Ha & _).
  eexists _, _. split; [exact Ha|]. split; [|reflexivity].
  cbn [snapshot Item.price]. unfold getEffectivePrice, isOnSale, or_else.
  destruct (Product.salePrice product) as [s|]; [|reflexivity].
  destruct (num_truthy s) eqn:Ht.
  - apply num_truthy_iff in Ht. destruct (Hsale s eq_refl) as [Hz | Hlt]; [contradiction|].
    apply num_lt_iff in Hlt. cbn [truthy]. by rewrite Hlt.
  - cbn [truthy]. by rewrite Ht.
Qed.

Lemma addItem_price_is_effective_witness :
  ∃ w' it, addItem woodland_animal_family 2 (fresh []) = Some ([] ++ [it], w')
    ∧ getEffectivePrice woodland_animal_family = VNum (Item.price it)
    ∧ Item.quantity it = 2.
Proof.
  apply addItem_price_is_effective.
  - reflexivity.
  - apply (bool_decide_unpack _). vm_compute. exact I.
  - intros s [= <-]. right. reflexivity.
Defined.

(** ** [loadProductData] *)

Section FoldInsert.

Context {A V : Type} (key : A -> string) (val : A -> V).

Lemma fold_insert_notin (l : list A) (m : gmap string V) (k : string) :
  k ∉ key <$> l →
  fold_left (fun table x => <[key x := val x]> table) l m !! k = m !! k.
Proof.
  revert m. induction l as [|x l IH]; intros m Hk; cbn [fold_left]; [reflexivity|].
  rewrite fmap_cons in Hk. apply not_elem_of_cons in Hk as [Hne Hk].
  rewrite IH by exact Hk. by rewrite lookup_insert_ne.
Qed.

Lemma fold_insert_cases (l : list A) (m : gmap string V) (k : string) (v : V) :
  fold_left (fun table x => <[key x := val x]> table) l m !! k = Some v →
  m !! k = Some v ∨ ∃ x, x ∈ l ∧ key x = k ∧ v = val x.
Proof.
  revert m. induction l as [|x l IH]; intros m H; cbn [fold_left] in H; [by left|].
  apply IH in H as [H | (y & Hy & Hk & Hv)].
  - destruct (decide (key x = k)) as [Heq | Hne].
    + rewrite Heq, lookup_insert_eq in H. injection H as <-.
      right. exists x. split; [apply list_elem_of_here | by split].
    + rewrite lookup_insert_ne in H by exact Hne. by left.
  - right. exists y. split; [by apply list_elem_of_further | by split].
Qed.

Lemma fold_insert_in (l : list A) (m : gmap string V) (x : A) :
  x ∈ l →
  ∃ y, y ∈ l ∧ key y = key x
    ∧ fold_left (fun table x => <[key x := val x]> table) l m !! key x = Some (val y).
Proof.
  revert m x. induction l as [|z l IH]; intros m x Hx; [by apply elem_of_nil in Hx|].
  cbn [fold_left].
  destruct (decide (key x ∈ key <$> l)) as [Hin | Hnot].
  - apply list_elem_of_fmap in Hin as (x' & Hk & Hx').
    destruct (IH (<[key z := val z]> m) x' Hx') as (y & Hy & Hky & Hl).
    exists y. split; [by apply list_elem_of_further|]. split; [congruence|].
    rewrite Hk. exact Hl.
  - rewrite fold_insert_notin by exact Hnot.
    apply elem_of_cons in Hx as [-> | Hx].
    + exists z. split; [apply list_elem_of_here|]. split; [reflexivity|].
      by rewrite lookup_insert_eq.
    + exfalso. apply Hnot. apply list_elem_of_fmap. eauto.
Qed.


End FoldInsert.


Lemma filter_Boolean_length (Products : gmap string Product.t) (ids : list string) :
  Forall (fun id => is_Some (Products !! id)) ids →
  length (filter_Boolean (map (fun id => Products !! id) ids)) = length ids.
Proof.
  induction 1 as [|id ids [p Hp] _ IH]; [reflexivity|].
  cbn [map]. rewrite Hp. cbn. by rewrite IH.
Qed.


Lemma loaded_fetched (fetch_json : string -> option Data.t) (basePath : string) (data : Data.t) :
  fetch_json (basePath ++ "data/products.json")%string = Some data →
  loadProductData fetch_json basePath initial
  = mkCatalogue
      (fold_left (fun table product => <[Product.id product := product]> table)
         (Data.products data) ∅)
      (fold_left (fun table collection =>
                    <[SourceCollection.id collection := loaded_collection data collection]> table)
         (Data.collections data) ∅)
      true.
Proof. intros H. unfold loadProductData. cbn [dataLoaded initial]. by rewrite H. Qed.

(** X9. After [loadProductData] on the freshly loaded script, whether the
    fetch succeeded or the fallback data was installed, every collection of
    the table is stored under its own id and every product id it lists
    resolves in [Products]: [getCollectionProducts] drops nothing and returns
    as many products as the collection lists ids. *)
Theorem loaded_collections_resolve (fetch_json : string -> option Data.t) (basePath : string)
    (collectionId : string) (collection : Collection.t) :
  let c := loadProductData fetch_json basePath initial in
  Collections c !! collectionId = Some collection →
  Collection.id collection = collectionId
  ∧ Forall (fun id => is_Some (getProduct (Products c) id)) (Collection.products collection)
  ∧ length (getCollectionProducts (Products c) (Collections c) collectionId)
    = length (Collection.products collection).
Proof.
  intros c Hc.
  assert (H : Collection.id collection = collectionId
              ∧ Forall (fun id => is_Some (Products c !! id)) (Collection.products collection)).
  { unfold c in *. destruct (fetch_json (basePath ++ "data/products.json")%string) as [data|] eqn:Hf.
    - rewrite (loaded_fetched _ _ _ Hf) in *. cbn [Collections Products] in *.
      apply fold_insert_cases in Hc as [Hc | (sc & _ & Hid & ->)]; [by rewrite lookup_empty in Hc|].
      split; [exact Hid|]. cbn [loaded_collection Collection.products].
      apply Forall_forall. intros id Hin.
      apply list_elem_of_fmap in Hin as (p & -> & Hp). apply list_elem_of_filter in Hp as [_ Hp].
      destruct (fold_insert_in Product.id (fun p => p) (Data.products data) ∅ p Hp)
        as (q & _ & _ & Hl).
      rewrite Hl. eauto.
    - unfold loadProductData in *. cbn [dataLoaded initial] in *. rewrite Hf in *.
      unfold loadProductData_settle in *.
      cbn [Collections Products] in *. unfold initializeFallbackData in *. cbn [fst snd] in *.
      apply lookup_singleton_Some in Hc as [<- <-].
      split; [reflexivity|]. cbn [Collection.products].
      constructor; [|constructor]. rewrite lookup_singleton_eq. by eexists. }
  destruct H as [Hid Hres]. split; [exact Hid|]. split; [exact Hres|].
  unfold getCollectionProducts. rewrite Hc. by apply filter_Boolean_length.
Qed.

Lemma loaded_collections_resolve_witness :
  let c := loadProductData (fun _ => None) "" initial in
  ∃ collection, Collections c !! "heirloom-wooden" = Some collection
    ∧ Collection.id collection = "heirloom-wooden"%string
    ∧ length (getCollectionProducts (Products c) (Collections c) "heirloom-wooden")
      = length (Collection.products collection).
Proof.
  intros c. eexists. split; [reflexivity|].
  destruct (loaded_collections_resolve (fun _ => None) "" "heirloom-wooden" _ eq_refl)
    as (Hid & _ & Hlen).
  split; [exact Hid | exact Hlen].
Defined.



(** ** What [addItem] does to the rows and to the totals *)





(** ** [updateQuantity] with a quantity at most 0, and [removeItem] *)

Lemma filter_other_ids (productId : string) (l : list Item.t) :
  Forall (fun it => Item.id it ≠ productId) l →
  filter (fun item => Item.id item ≠ productId) l = l.
Proof.
  induction 1 as [|x l Hx _ IH]; [reflexivity|].
  rewrite filter_cons_True by exact Hx. by rewrite IH.
Qed.

(** X12. On a cart whose rows have distinct product ids, [updateQuantity]
    with a quantity at most 0 and [removeItem] return the same line-items
    and leave carts with the same line-items, whether or not the product has
    a row. *)
Theorem updateQuantity_nonpositive_as_removeItem (productId : string) (quantity : number)
    (w : World) (items : list Item.t) :
  getItems w = Some items →
  NoDup (Item.id <$> items) →
  quantity <= 0 →
  ∃ items' w1 w2,
    updateQuantity productId quantity w = Some (items', w1)
    ∧ removeItem productId w = Some (items', w2)
    ∧ getItems w1 = Some items' ∧ getItems w2 = Some items'.
Proof.
  intros Hg Hnd Hq.
  destruct (removeItem_filter productId w items Hg) as (w2 & Hr & Hsv2).
  pose proof (saved_getItems _ _ _ Hsv2) as Hg2.
  destruct (id_cases productId items) as [Hf | (pre & it & post & -> & Hpre & Hit)].
  - rewrite (filter_other_ids _ _ Hf) in Hr, Hg2.
    exists items, w, w2. by rewrite (updateQuantity_absent _ _ _ _ Hg Hf).
  - destruct (unique_row_split _ _ _ _ Hnd Hit) as [_ Hpost].
    destruct (updateQuantity_remove productId quantity w pre it post Hg Hpre Hit Hq)
      as (w1 & Hu & Hsv1).
    assert (He : filter (fun item => Item.id item ≠ productId) (pre ++ it :: post) = pre ++ post).
    { rewrite filter_app, filter_cons_False by (intros Hne; by apply Hne).
      by rewrite !filter_other_ids. }
    rewrite He in Hr, Hg2.
    exists (pre ++ post), w1, w2. split; [exact Hu|]. split; [exact Hr|].
    split; [exact (saved_getItems _ _ _ Hsv1) | exact Hg2].
Qed.

Lemma updateQuantity_nonpositive_as_removeItem_witness :
  let items := [snapshot woodland_animal_family 36 1; snapshot heritage_block_set 68 2] in
  let w := mkWorld {[ STORAGE_KEY := JSON_stringify (items_to_json items) ]} [] in
  ∃ items' w1 w2,
    updateQuantity "woodland-animal-family" (-1) w = Some (items', w1)
    ∧ removeItem "woodland-animal-family" w = Some (items', w2)
    ∧ getItems w1 = Some items' ∧ getItems w2 = Some items'.
Proof.
  intros items w. apply (updateQuantity_nonpositive_as_removeItem _ _ w items).
  - reflexivity.
  - apply (bool_decide_unpack _). vm_compute. exact I.
  - discriminate.
Defined.

(** ** Quantities along a session *)

(** X13. As long as [addItem] is only called with positive quantities, every
    sequence of [addItem], [updateQuantity], [removeItem] and [clear] calls
    from the empty cart, with any arguments otherwise, succeeds and leaves a
    cart in which every row has a positive quantity. *)
Theorem positive_quantities_kept (cs : list call) (badges : list badge) :
  Forall positive_call cs →
  ∃ w items, run cs (fresh badges) = Some w ∧ getItems w = Some items
    ∧ Forall (fun it => 0 < Item.quantity it) items.
Proof. apply run_positive. Qed.

Lemma positive_quantities_kept_witness :
  ∃ w items,
    run [AddItem heritage_block_set 2; UpdateQuantity "heritage-block-set" (-3);
         AddItem woodland_animal_family 1; UpdateQuantity "woodland-animal-family" 4]
      (fresh [Blank]) = Some w
    ∧ getItems w = Some items
    ∧ Forall (fun it => 0 < Item.quantity it) items.
Proof.
  apply positive_quantities_kept.
  repeat constructor.
Defined.

(** ** The range of [getTotals] *)

(** X14. Whatever the cart holds, the shipping fee of [getTotals] is 0 or
    8.95, it is 8.95 only for a subtotal strictly between 0 and 75, and the
    total is never below the subtotal. *)
Theorem getTotals_range (w : World) (t : Totals.t) :
  getTotals w = Some t →
  (Totals.shipping t = 0 ∨ Totals.shipping t = 8.95)
  ∧ (Totals.shipping t = 8.95 → 0 < Totals.subtotal t ∧ Totals.subtotal t < 75)
  ∧ Totals.subtotal t <= Totals.total t.
Proof.
  unfold getTotals. destruct (getItems w) as [items|]; [|discriminate].
  cbn [mbind option_bind]. intros [= <-].
  cbn [Totals.subtotal Totals.shipping Totals.total].
  set (subtotal := fold_left _ items 0).
  destruct (num_gt subtotal 0) eqn:Hgt; [destruct (num_ge subtotal 75) eqn:Hge|].
  - split; [by left|]. split; [discriminate | lra].
  - split; [by right|]. split; [|lra]. intros _.
    apply num_lt_iff in Hgt. split; [exact Hgt|].
    apply Qnot_le_lt. intros Hle. apply num_le_iff in Hle. unfold num_ge in Hge. congruence.
  - split; [by left|]. split; [discriminate | lra].
Qed.

Lemma getTotals_range_witness :
  ∃ t, getTotals (mkWorld {[ STORAGE_KEY := JSON_stringify (items_to_json
                              [snapshot woodland_animal_family 36 1]) ]} []) = Some t
    ∧ Totals.shipping t = 8.95
    ∧ Totals.subtotal t <= Totals.total t.
Proof.
  assert (H : ∃ t, getTotals (mkWorld {[ STORAGE_KEY := JSON_stringify (items_to_json
                                           [snapshot woodland_animal_family 36 1]) ]} []) = Some t
                   ∧ Totals.shipping t = 8.95)
    by (eexists; split; reflexivity).
  destruct H as (t & Ht & Hs). exists t. split; [exact Ht|]. split; [exact Hs|].
  exact (proj2 (proj2 (getTotals_range _ t Ht))).
Defined.

(** ** Where the rows of a cart come from *)

Lemma same_snapshot_refl (it : Item.t) : same_snapshot it it.
Proof. by destruct it. Qed.

Lemma same_snapshot_with_quantity (q : number) (it : Item.t) :
  same_snapshot it (Item.with_quantity q it).
Proof. reflexivity. Qed.

Lemma same_snapshot_trans (a b c : Item.t) :
  same_snapshot a b → same_snapshot b c → same_snapshot a c.
Proof. unfold same_snapshot. intros -> ->. reflexivity. Qed.

(** A call changes no row but in its quantity, and adds at most the
    snapshot of the product of an [addItem]. *)
Lemma step_rows (c : call) (w w' : World) (items items' : list Item.t) :
  getItems w = Some items → step c w = Some w' → getItems w' = Some items' →
  ∀ row', row' ∈ items' →
    (∃ row, row ∈ items ∧ same_snapshot row row')
    ∨ (∃ product quantity, c = AddItem product quantity
         ∧ row' = snapshot product
                    (or_else (Product.salePrice product) (Product.price product)) quantity).
Proof.
  intros Hg Hstep Hg' row' Hin.
  destruct c as [product quantity | productId quantity | productId | ]; cbn [step] in Hstep.
  - destruct (id_cases (Product.id product) items) as [Hf | (pre & it & post & -> & Hpre & Hit)].
    + destruct (addItem_fresh product quantity w items Hg Hf) as (w1 & Ha & Hsv).
      rewrite Ha in Hstep. injection Hstep as <-.
      rewrite (saved_getItems _ _ _ Hsv) in Hg'. injection Hg' as <-.
      apply elem_of_app in Hin as [Hin | Hin].
      * left. exists row'. split; [exact Hin | apply same_snapshot_refl].
      * apply list_elem_of_singleton in Hin as ->. right. by exists product, quantity.
    + destruct (addItem_existing product quantity w pre it post Hg Hpre Hit) as (w1 & Ha & Hsv).
      rewrite Ha in Hstep. injection Hstep as <-.
      rewrite (saved_getItems _ _ _ Hsv) in Hg'. injection Hg' as <-.
      left. apply elem_of_app in Hin as [Hin | Hin].
      * exists row'. split; [apply elem_of_app; by left | apply same_snapshot_refl].
      * apply elem_of_cons in Hin as [-> | Hin].
        -- exists it. split; [|apply same_snapshot_with_quantity].
           apply elem_of_app. right. apply list_elem_of_here.
        -- exists row'. split; [|apply same_snapshot_refl].
           apply elem_of_app. right. by apply list_elem_of_further.
  - left. destruct (id_cases productId items) as [Hf | (pre & it & post & -> & Hpre & Hit)].
    + rewrite (updateQuantity_absent productId quantity w items Hg Hf) in Hstep.
      injection Hstep as <-. rewrite Hg in Hg'. injection Hg' as <-.
      exists row'. split; [exact Hin | apply same_snapshot_refl].
    + destruct (Qlt_le_dec 0 quantity) as [Hq | Hq].
      * destruct (updateQuantity_set productId quantity w pre it post Hg Hpre Hit Hq)
          as (w1 & Hu & Hsv).
        rewrite Hu in Hstep. injection Hstep as <-.
        rewrite (saved_getItems _ _ _ Hsv) in Hg'. injection Hg' as <-.
        apply elem_of_app in Hin as [Hin | Hin].
        -- exists row'. split; [apply elem_of_app; by left | apply same_snapshot_refl].
        -- apply elem_of_cons in Hin as [-> | Hin].
           ++ exists it. split; [|apply same_snapshot_with_quantity].
              apply elem_of_app. right. apply list_elem_of_here.
           ++ exists row'. split; [|apply same_snapshot_refl].
              apply elem_of_app. right. by apply list_elem_of_further.
      * destruct (updateQuantity_remove productId quantity w pre it post Hg Hpre Hit Hq)
          as (w1 & Hu & Hsv).
        rewrite Hu in Hstep. injection Hstep as <-.
        rewrite (saved_getItems _ _ _ Hsv) in Hg'. injection Hg' as <-.
        exists row'. split; [|apply same_snapshot_refl].
        apply elem_of_app in Hin as [Hin | Hin]; apply elem_of_app; [by left | right].
        by apply list_elem_of_further.
  - left. destruct (removeItem_filter productId w items Hg) as (w1 & Hr & Hsv).
    rewrite Hr in Hstep. injection Hstep as <-.
    rewrite (saved_getItems _ _ _ Hsv) in Hg'. injection Hg' as <-.
    apply list_elem_of_filter in Hin as [_ Hin].
    exists row'. split; [exact Hin | apply same_snapshot_refl].
  - destruct (clear_storage w) as (bs & Hc & _). rewrite Hc in Hstep. injection Hstep as <-.
    rewrite getItems_removed in Hg'. injection Hg' as <-. by apply elem_of_nil in Hin.
Qed.

Lemma run_rows (cs : list call) (w w' : World) (items items' : list Item.t) :
  getItems w = Some items → run cs w = Some w' → getItems w' = Some items' →
  ∀ row', row' ∈ items' →
    (∃ row, row ∈ items ∧ same_snapshot row row')
    ∨ (∃ product quantity, AddItem product quantity ∈ cs
         ∧ same_snapshot
             (snapshot product (or_else (Product.salePrice product) (Product.price product)) quantity)
             row').
Proof.
  revert w items. induction cs as [|c cs IH]; intros w items Hg Hrun Hg' row' Hin; cbn [run] in Hrun.
  - injection Hrun as <-. rewrite Hg in Hg'. injection Hg' as <-.
    left. exists row'. split; [exact Hin | apply same_snapshot_refl].
  - destruct (step_typed c w items Hg) as (w1 & items1 & Hstep & Hg1 & _).
    rewrite Hstep in Hrun. cbn [mbind option_bind] in Hrun.
    destruct (IH w1 items1 Hg1 Hrun Hg' row' Hin) as [(row1 & Hin1 & Hsame) | (p & q & Hc & Hsame)].
    + destruct (step_rows c w w1 items items1 Hg Hstep Hg1 row1 Hin1)
        as [(row & Hrow & Hsame0) | (p & q & -> & ->)].
      * left. exists row. split; [exact Hrow | by apply (same_snapshot_trans _ row1)].
      * right. exists p, q. split; [apply list_elem_of_here | exact Hsame].
    + right. exists p, q. split; [by apply list_elem_of_further | exact Hsame].
Qed.

(** X15. Every row of a cart reached from the empty one was appended by an
    [addItem] of the session and still carries what that call snapshotted:
    the id, name, image, collection, base price and sale price of the
    product passed to it, and as unit price its [salePrice || price].  No
    later call changes anything of a row but its quantity. *)
Theorem rows_keep_their_snapshot (cs : list call) (badges : list badge) (w : World)
    (items : list Item.t) (row : Item.t) :
  run cs (fresh badges) = Some w → getItems w = Some items → row ∈ items →
  ∃ product quantity, AddItem product quantity ∈ cs
    ∧ Item.id row = Product.id product
    ∧ Item.name row = Product.name product
    ∧ Item.price row = or_else (Product.salePrice product) (Product.price product)
    ∧ Item.originalPrice row = Product.price product
    ∧ Item.salePrice row = Product.salePrice product
    ∧ Item.image row = Product.image product
    ∧ Item.collection row = Product.collection product.
Proof.
  intros Hrun Hg Hin.
  destruct (run_rows cs (fresh badges) w [] items (getItems_fresh badges) Hrun Hg row Hin)
    as [(r0 & Hr0 & _) | (p & q & Hc & Hsame)]; [by apply elem_of_nil in Hr0|].
  exists p, q. split; [exact Hc|]. unfold same_snapshot in Hsame. rewrite Hsame.
  by repeat split.
Qed.

Lemma rows_keep_their_snapshot_witness :
  ∃ product quantity,
    AddItem product quantity
      ∈ [AddItem woodland_animal_family 1; UpdateQuantity "woodland-animal-family" 7]
    ∧ Item.id (snapshot woodland_animal_family 36 7) = Product.id product
    ∧ Item.name (snapshot woodland_animal_family 36 7) = Product.name product
    ∧ Item.price (snapshot woodland_animal_family 36 7)
      = or_else (Product.salePrice product) (Product.price product)
    ∧ Item.originalPrice (snapshot woodland_animal_family 36 7) = Product.price product
    ∧ Item.salePrice (snapshot woodland_animal_family 36 7) = Product.salePrice product
    ∧ Item.image (snapshot woodland_animal_family 36 7) = Product.image product
    ∧ Item.collection (snapshot woodland_animal_family 36 7) = Product.collection product.
Proof.
  destruct (run [AddItem woodland_animal_family 1; UpdateQuantity "woodland-animal-family" 7]
              (fresh [])) as [w|] eqn:Hrun; [|by vm_compute in Hrun].
  apply (rows_keep_their_snapshot _ [] w [snapshot woodland_animal_family 36 7] _ Hrun).
  - vm_compute in Hrun. injection Hrun as <-. reflexivity.
  - apply list_elem_of_here.
Defined.

(** ** [addItem] followed by [removeItem] *)

(** X16. Adding a product that has no row and removing it again restores
    the line-items: after [addItem] and then [removeItem] of the product's
    id, [getItems] returns the rows the cart had before, in their order,
    whatever quantity was added. *)
Theorem addItem_removeItem_restores (product : Product.t) (quantity : number) (w : World)
    (items : list Item.t) :
  getItems w = Some items →
  (Product.id product ∉ Item.id <$> items) →
  ∃ w',
    run [AddItem product quantity; RemoveItem (Product.id product)] w = Some w'
    ∧ getItems w' = Some items.
Proof.
  intros Hg Hnew. apply absent_not_elem in Hnew.
  destruct (addItem_fresh product quantity w items Hg Hnew) as (w1 & Ha & Hsv1).
  pose proof (saved_getItems _ _ _ Hsv1) as Hg1.
  destruct (removeItem_filter (Product.id product) w1 _ Hg1) as (w2 & Hr & Hsv2).
  exists w2. cbn [run step]. rewrite Ha. cbn [fmap option_fmap option_map mbind option_bind snd].
  rewrite Hr. cbn [fmap option_fmap option_map mbind option_bind snd].
  split; [reflexivity|]. rewrite (saved_getItems _ _ _ Hsv2). f_equal.
  rewrite filter_app, (filter_other_ids _ _ Hnew).
  rewrite filter_cons_False by (intros Hne; by apply Hne).
  by rewrite filter_nil, app_nil_r.
Qed.

Lemma addItem_removeItem_restores_witness :
  let items := [snapshot heritage_block_set 68 2] in
  let w := mkWorld {[ STORAGE_KEY := JSON_stringify (items_to_json items) ]} [] in
  ∃ w',
    run [AddItem woodland_animal_family 5; RemoveItem (Product.id woodland_animal_family)] w
    = Some w'
    ∧ getItems w' = Some items.
Proof.
  intros items w. apply addItem_removeItem_restores.
  - reflexivity.
  - apply (bool_decide_unpack _). vm_compute. exact I.
Defined.
